(** * greeting-operator: the provisioning routine of cmd/greeting-operator/main.go

    A shallow embedding of the operator's three ensure-operations
    (createNamespace, createDeployment, createService), of [Start] and of
    [run], together with the Kubernetes resource types they build, and of
    the two HTTP handlers of cmd/greeting-server/main.go, the workload the
    operator deploys.

    Calls against the cluster client are the only effects the routine has
    that matter here; they are kept as the nodes of a small program type
    ([prog]) and given meaning by any [Client].  Log lines and the
    [context.Context] argument carry no data of the resources and are left
    out: whatever a cancelled context does shows up as an error answer of
    the client. *)

From stdpp Require Import gmap strings list fin_maps.
From Stdlib Require Import ZArith NArith Ascii.

Local Open Scope string_scope.
Local Open Scope list_scope.
Local Open Scope Z_scope.

(* ===================================================================== *)
(** ** k8s.io/apimachinery/pkg/util/intstr *)
(* ===================================================================== *)

Module intstr.

(** Go's conversion [int32(val)] of an int: the low 32 bits, read as a
    signed number. *)
Definition int32 (val : Z) : Z := (val + 2 ^ 31) mod 2 ^ 32 - 2 ^ 31.

(** [IntOrString] is the library's tagged union of an int32 and a
    string. *)
Inductive IntOrString : Type :=
| OfInt32 (IntVal : Z)
| OfString (StrVal : string).

(** [FromInt(val int)] stores [int32(val)]: a value outside int32 wraps
    (the library logs that and goes on). *)
Definition FromInt (val : Z) : IntOrString := OfInt32 (int32 val).

Definition FromString (val : string) : IntOrString := OfString val.

End intstr.

(* ===================================================================== *)
(** ** k8s.io/apimachinery/pkg/apis/meta/v1 *)
(* ===================================================================== *)

Module meta.

(** Only the fields the operator sets; a Go nil map is the empty map. *)
Record ObjectMeta : Type := mkObjectMeta {
  Name : string;
  Labels : gmap string string
}.

Record LabelSelector : Type := mkLabelSelector {
  MatchLabels : gmap string string
}.

End meta.

(* ===================================================================== *)
(** ** k8s.io/api/core/v1 *)
(* ===================================================================== *)

Module api.

Definition NamespaceDefault : string := "default".

Inductive Protocol : Type := ProtocolTCP | ProtocolUDP | ProtocolSCTP.
Inductive PullPolicy : Type := PullAlways | PullNever | PullIfNotPresent.
Inductive RestartPolicy : Type :=
  RestartPolicyAlways | RestartPolicyOnFailure | RestartPolicyNever.
Inductive ServiceType : Type :=
| ServiceTypeClusterIP
| ServiceTypeNodePort
| ServiceTypeLoadBalancer
| ServiceTypeExternalName.

Record Namespace : Type := mkNamespace {
  ns_ObjectMeta : meta.ObjectMeta
}.

Record ContainerPort : Type := mkContainerPort {
  cp_Name : string;
  cp_Protocol : Protocol;
  cp_ContainerPort : Z
}.

Record EnvVar : Type := mkEnvVar {
  env_Name : string;
  env_Value : string
}.

Record HTTPGetAction : Type := mkHTTPGetAction {
  http_Path : string;
  http_Port : intstr.IntOrString
}.

Record ProbeHandler : Type := mkProbeHandler {
  HTTPGet : option HTTPGetAction
}.

Record Probe : Type := mkProbe {
  probe_ProbeHandler : ProbeHandler;
  TimeoutSeconds : Z
}.

Record Container : Type := mkContainer {
  c_Name : string;
  c_Image : string;
  c_Ports : list ContainerPort;
  c_Env : list EnvVar;
  c_LivenessProbe : option Probe;
  c_ImagePullPolicy : PullPolicy
}.

Record PodSpec : Type := mkPodSpec {
  Containers : list Container;
  pod_RestartPolicy : RestartPolicy
}.

Record PodTemplateSpec : Type := mkPodTemplateSpec {
  tpl_ObjectMeta : meta.ObjectMeta;
  tpl_Spec : PodSpec
}.

Record ServicePort : Type := mkServicePort {
  sp_Name : string;
  sp_Protocol : Protocol;
  sp_Port : Z;
  sp_TargetPort : intstr.IntOrString
}.

Record ServiceSpec : Type := mkServiceSpec {
  svc_Selector : gmap string string;
  svc_Type : ServiceType;
  svc_Ports : list ServicePort
}.

Record Service : Type := mkService {
  svc_ObjectMeta : meta.ObjectMeta;
  svc_Spec : ServiceSpec
}.

End api.

(* ===================================================================== *)
(** ** k8s.io/api/apps/v1 *)
(* ===================================================================== *)

Module apps.

(** [Replicas] and [Selector] are pointers in Go, hence options. *)
Record DeploymentSpec : Type := mkDeploymentSpec {
  Replicas : option Z;
  Selector : option meta.LabelSelector;
  Template : api.PodTemplateSpec
}.

Record Deployment : Type := mkDeployment {
  dep_ObjectMeta : meta.ObjectMeta;
  dep_Spec : DeploymentSpec
}.

End apps.

(* ===================================================================== *)
(** ** Go errors, fmt.Errorf with %w, k8s.io/apimachinery/pkg/api/errors *)
(* ===================================================================== *)

Module kerror.

Inductive StatusReason : Type :=
| StatusReasonAlreadyExists
| StatusReasonNotFound
| StatusReasonConflict
| StatusReasonInvalid
| StatusReasonUnknown.

(** An [error] value: a status answer of the API server, any other
    failure (connection, cancelled context), or an error wrapped by
    [fmt.Errorf("<prefix>: %w", err)]. *)
Inductive error : Type :=
| StatusError (reason : StatusReason) (message : string)
| PlainError (message : string)
| Wrapped (prefix : string) (err : error).

(** [ReasonForError] looks through wrapping, as errors.As does. *)
Fixpoint ReasonForError (err : error) : StatusReason :=
  match err with
  | StatusError r _ => r
  | PlainError _ => StatusReasonUnknown
  | Wrapped _ e => ReasonForError e
  end.

Definition IsAlreadyExists (err : error) : bool :=
  match ReasonForError err with
  | StatusReasonAlreadyExists => true
  | _ => false
  end.

End kerror.

Import kerror.

(** [fmt.Errorf(prefix ++ "%w", err)] *)
Definition Errorf (prefix : string) (err : error) : error := Wrapped prefix err.

(* ===================================================================== *)
(** ** k8s.io/apimachinery/pkg/util/validation: names of namespaces *)
(* ===================================================================== *)

Module validation.

Definition isAlphanumeric (c : ascii) : bool :=
  let n := N_of_ascii c in
  ((97 <=? n) && (n <=? 122) || (48 <=? n) && (n <=? 57))%N.

Definition isLabelChar (c : ascii) : bool :=
  isAlphanumeric c || (N_of_ascii c =? 45)%N.

Fixpoint allChars (p : ascii → bool) (s : string) : bool :=
  match s with
  | EmptyString => true
  | String c s' => p c && allChars p s'
  end.

Definition firstChar (s : string) : option ascii :=
  match s with
  | EmptyString => None
  | String c _ => Some c
  end.

Fixpoint lastChar (s : string) : option ascii :=
  match s with
  | EmptyString => None
  | String c EmptyString => Some c
  | String _ s' => lastChar s'
  end.

(** A DNS label as the API server asks of a namespace name: at most 63
    characters, lower-case letters, digits and '-', a letter or digit at
    both ends. *)
Definition IsDNS1123Label (s : string) : bool :=
  (String.length s <=? 63)%nat &&
  allChars isLabelChar s &&
  from_option isAlphanumeric false (firstChar s) &&
  from_option isAlphanumeric false (lastChar s).

End validation.

(* ===================================================================== *)
(** ** k8s.io/client-go/rest: what the client refuses before any request *)
(* ===================================================================== *)

Module rest.

Fixpoint contains (ch : ascii) (s : string) : bool :=
  match s with
  | EmptyString => false
  | String c s' => Ascii.eqb c ch || contains ch s'
  end.

(** A name usable as one segment of a request path: not "." or "..", and
    without '/' and '%'. *)
Definition IsValidPathSegmentName (name : string) : bool :=
  negb (String.eqb name "." || String.eqb name ".." ||
        contains "/" name || contains "%" name).

(** [Request.Namespace] and [Request.Name]; the text of the messages is
    shortened. *)
Definition namespaceError (ns : string) : option kerror.error :=
  if IsValidPathSegmentName ns then None
  else Some (kerror.PlainError "invalid namespace").

Definition nameError (name : string) : option kerror.error :=
  if String.eqb name "" then
    Some (kerror.PlainError "resource name may not be empty")
  else if IsValidPathSegmentName name then None
  else Some (kerror.PlainError "invalid resource name").

(** A POST through a namespaced client: the namespace has to be a path
    segment, and the preflight check refuses the empty one. *)
Definition Post (ns : string) : option kerror.error :=
  match namespaceError ns with
  | Some err => Some err
  | None =>
      if String.eqb ns "" then
        Some (kerror.PlainError
                "an empty namespace may not be set during creation")
      else None
  end.

(** A PUT of a named object through a namespaced client. *)
Definition Put (ns name : string) : option kerror.error :=
  match namespaceError ns with
  | Some err => Some err
  | None =>
      match nameError name with
      | Some err => Some err
      | None =>
          if String.eqb ns "" then
            Some (kerror.PlainError
                    "an empty namespace may not be set when a resource name is provided")
          else None
      end
  end.

End rest.

(* ===================================================================== *)
(** ** The cluster client and programs over it *)
(* ===================================================================== *)

(** The calls of [kubernetes.Clientset] on the three resource kinds.  The
    namespaced clients ([Deployments(ns)], [Services(ns)]) carry their
    namespace.  Every call answers [(object, error)]; the operator drops the
    object, so an answer is [None] for a nil error and [Some err]
    otherwise.  The object goes to the client by pointer; nothing writes
    through that pointer between the create and the update call, so both
    calls carry the value that was built. *)
Inductive call : Type :=
| NamespacesCreate (namespace : api.Namespace)
| NamespacesUpdate (namespace : api.Namespace)
| DeploymentsCreate (ns : string) (deployment : apps.Deployment)
| DeploymentsUpdate (ns : string) (deployment : apps.Deployment)
| ServicesCreate (ns : string) (service : api.Service)
| ServicesUpdate (ns : string) (service : api.Service).

Inductive prog (A : Type) : Type :=
| Ret (a : A)
| Call (c : call) (k : option error → prog A).

Arguments Ret {A} a.
Arguments Call {A} c k.

Fixpoint bind {A B : Type} (p : prog A) (f : A → prog B) : prog B :=
  match p with
  | Ret a => f a
  | Call c k => Call c (λ r, bind (k r) f)
  end.

(** [x ← p; q] is stdpp's notation for [mbind]. *)
#[global] Instance prog_ret : MRet prog := @Ret.
#[global] Instance prog_bind : MBind prog := λ A B f p, bind p f.

(** A client: some state (the cluster behind it, a mock's script) and the
    answer to each call. *)
Record Client : Type := mkClient {
  cstate : Type;
  invoke : call → cstate → option error * cstate
}.

Record outcome (A S : Type) : Type := mkOutcome {
  result : A;
  final : S;
  trace : list call
}.

Arguments mkOutcome {A S} result final trace.
Arguments result {A S} o.
Arguments final {A S} o.
Arguments trace {A S} o.

(** Running a program against a client, recording the calls in order. *)
Fixpoint exec {A : Type} (cl : Client) (p : prog A) (s : cstate cl)
  : outcome A (cstate cl) :=
  match p with
  | Ret a => mkOutcome a s []
  | Call c k =>
      let '(r, s') := invoke cl c s in
      let o := exec cl (k r) s' in
      mkOutcome (result o) (final o) (c :: trace o)
  end.

(* ===================================================================== *)
(** ** cmd/greeting-operator/main.go *)
(* ===================================================================== *)

(** GreetingOperatorConfig *)
Record GreetingOperatorConfig : Type := mkConfig {
  Image : string;
  Port : Z;
  Namespace : string;
  Replicas : N;
  Name : string
}.

(** GreetingOperator; its [client] field is the [Client] programs are run
    against. *)
Record GreetingOperator : Type := mkOperator {
  image : string;
  port : Z;
  namespace : string;
  replicas : N;
  name : string
}.

(** What the surroundings answer to [rest.InClusterConfig()] and
    [kubernetes.NewForConfig(cfg)]: [None] for a nil error. *)
Record Env : Type := mkEnv {
  InClusterConfig : option error;
  NewForConfig : option error
}.

Definition NewGreetingOperator (env : Env) (config : GreetingOperatorConfig)
  : error + GreetingOperator :=
  match InClusterConfig env with
  | Some err => inl (Errorf "in cluster config: " err)
  | None =>
      match NewForConfig env with
      | Some err => inl (Errorf "new k8s client: " err)
      | None =>
          inr {| image := Image config;
                 port := Port config;
                 namespace := Namespace config;
                 replicas := Replicas config;
                 name := Name config |}
      end
  end.

(** The namespace object of createNamespace. *)
Definition namespaceObject (o : GreetingOperator) : api.Namespace :=
  {| api.ns_ObjectMeta := {| meta.Name := namespace o; meta.Labels := ∅ |} |}.

Definition createNamespace (o : GreetingOperator) : prog (option error) :=
  Call (NamespacesCreate (namespaceObject o)) (λ r,
    match r with
    | Some err =>
        if negb (IsAlreadyExists err)
        then Ret (Some (Errorf "create namespace: " err))
        else Ret None
    | None => Ret None
    end).

(** [objMeta], [podTpl] and [greetingDeployment] of createDeployment. *)
Definition objMeta : meta.ObjectMeta :=
  {| meta.Name := "greeting";
     meta.Labels := {[ "app" := "greeting" ]} |}.

Definition podTpl (o : GreetingOperator) : api.PodTemplateSpec :=
  {| api.tpl_ObjectMeta := objMeta;
     api.tpl_Spec :=
       {| api.Containers :=
            [ {| api.c_Name := "greeting";
                 api.c_Image := image o;
                 api.c_Ports :=
                   [ {| api.cp_Name := "http";
                        api.cp_Protocol := api.ProtocolTCP;
                        api.cp_ContainerPort := 80 |} ];
                 api.c_Env :=
                   [ {| api.env_Name := "NAME"; api.env_Value := name o |} ];
                 api.c_LivenessProbe :=
                   Some {| api.probe_ProbeHandler :=
                             {| api.HTTPGet :=
                                  Some {| api.http_Path := "/health";
                                          api.http_Port := intstr.FromInt 80 |} |};
                           api.TimeoutSeconds := 3 |};
                 api.c_ImagePullPolicy := api.PullNever |} ];
          api.pod_RestartPolicy := api.RestartPolicyAlways |} |}.

Definition greetingDeployment (o : GreetingOperator) : apps.Deployment :=
  let replicas : Z := 1 in
  {| apps.dep_ObjectMeta := objMeta;
     apps.dep_Spec :=
       {| apps.Replicas := Some replicas;
          apps.Selector :=
            Some {| meta.MatchLabels := {[ "app" := "greeting" ]} |};
          apps.Template := podTpl o |} |}.

Definition createDeployment (o : GreetingOperator) : prog (option error) :=
  let deployment := greetingDeployment o in
  Call (DeploymentsCreate (namespace o) deployment) (λ r,
    match r with
    | Some err =>
        if negb (IsAlreadyExists err)
        then Ret (Some (Errorf "create deployment: " err))
        else
          (* alreadyExists = true *)
          Call (DeploymentsUpdate (namespace o) deployment) (λ r',
            match r' with
            | Some err' => Ret (Some (Errorf "update deployment: " err'))
            | None => Ret None
            end)
    | None => Ret None
    end).

(** [service] of createService. *)
Definition serviceObject (o : GreetingOperator) : api.Service :=
  {| api.svc_ObjectMeta := {| meta.Name := "greeting"; meta.Labels := ∅ |};
     api.svc_Spec :=
       {| api.svc_Selector := {[ "app" := "greeting" ]};
          api.svc_Type := api.ServiceTypeLoadBalancer;
          api.svc_Ports :=
            [ {| api.sp_Name := "http";
                 api.sp_Protocol := api.ProtocolTCP;
                 api.sp_Port := 80;
                 api.sp_TargetPort := intstr.FromInt (port o) |} ] |} |}.

Definition createService (o : GreetingOperator) : prog (option error) :=
  let service := serviceObject o in
  Call (ServicesCreate (namespace o) service) (λ r,
    match r with
    | Some err =>
        if negb (IsAlreadyExists err)
        then Ret (Some (Errorf "create service: " err))
        else
          Call (ServicesUpdate (namespace o) service) (λ r',
            match r' with
            | Some err' => Ret (Some (Errorf "update service: " err'))
            | None => Ret None
            end)
    | None => Ret None
    end).

(** Start *)
Definition Start (o : GreetingOperator) : prog (option error) :=
  r1 ← createNamespace o;
  match r1 with
  | Some err => Ret (Some err)
  | None =>
      r2 ← createDeployment o;
      match r2 with
      | Some err => Ret (Some err)
      | None =>
          r3 ← createService o;
          match r3 with
          | Some err => Ret (Some err)
          | None => Ret None
          end
      end
  end.

(** The flag values a [cli.Context] answers with: [cliCtx.String("image")],
    [cliCtx.Int("port")], ... after flags, environment and defaults. *)
Record cliContext : Type := mkCli {
  flag_image : string;
  flag_port : Z;
  flag_namespace : string;
  flag_replicas : N;
  flag_name : string
}.

(** The composite literal of [run]: [Port] is not among its fields and so
    holds Go's zero value. *)
Definition runConfig (cliCtx : cliContext) : GreetingOperatorConfig :=
  {| Image := flag_image cliCtx;
     Port := 0;
     Namespace := flag_namespace cliCtx;
     Replicas := flag_replicas cliCtx;
     Name := flag_name cliCtx |}.

Definition run (env : Env) (cliCtx : cliContext) : prog (option error) :=
  let config := runConfig cliCtx in
  match NewGreetingOperator env config with
  | inl err => Ret (Some (Errorf "creating operator: " err))
  | inr operator =>
      r ← Start operator;
      match r with
      | Some err => Ret (Some (Errorf "start operator: " err))
      | None => Ret None
      end
  end.

(* ===================================================================== *)
(** ** Reading traces *)
(* ===================================================================== *)

Definition isNamespaceCall (c : call) : bool :=
  match c with
  | NamespacesCreate _ | NamespacesUpdate _ => true
  | _ => false
  end.

Definition isDeploymentCall (c : call) : bool :=
  match c with
  | DeploymentsCreate _ _ | DeploymentsUpdate _ _ => true
  | _ => false
  end.

Definition isServiceCall (c : call) : bool :=
  match c with
  | ServicesCreate _ _ | ServicesUpdate _ _ => true
  | _ => false
  end.

Definition isUpdateCall (c : call) : bool :=
  match c with
  | NamespacesUpdate _ | DeploymentsUpdate _ _ | ServicesUpdate _ _ => true
  | _ => false
  end.

(** The Deployments handed to the cluster, by create or by update, each
    with the namespace of the client it went through. *)
Definition submittedDeployment (c : call) : option (string * apps.Deployment) :=
  match c with
  | DeploymentsCreate ns d | DeploymentsUpdate ns d => Some (ns, d)
  | _ => None
  end.

Definition submittedService (c : call) : option (string * api.Service) :=
  match c with
  | ServicesCreate ns s | ServicesUpdate ns s => Some (ns, s)
  | _ => None
  end.

Definition deploymentsOf (t : list call) : list (string * apps.Deployment) :=
  omap submittedDeployment t.

Definition servicesOf (t : list call) : list (string * api.Service) :=
  omap submittedService t.

Definition updatesOf (t : list call) : list call :=
  filter (λ c, isUpdateCall c = true) t.

(** The operator with another [port], all else kept. *)
Definition withPort (o : GreetingOperator) (p : Z) : GreetingOperator :=
  {| image := image o;
     port := p;
     namespace := namespace o;
     replicas := replicas o;
     name := name o |}.

(** The pieces of a Deployment the statements below speak about. *)
Definition replicaCount (d : apps.Deployment) : option Z :=
  apps.Replicas (apps.dep_Spec d).

Definition containersOf (d : apps.Deployment) : list api.Container :=
  api.Containers (api.tpl_Spec (apps.Template (apps.dep_Spec d))).

Definition livenessGet (c : api.Container) : option api.HTTPGetAction :=
  p ← api.c_LivenessProbe c; api.HTTPGet (api.probe_ProbeHandler p).

(* ===================================================================== *)
(** ** A reference cluster *)
(* ===================================================================== *)

(** The client and the API server behind it, as the operator meets them.
    The client refuses a call through a namespaced client whose namespace
    is empty or no path segment, and an update of an object whose name is,
    before it asks the server; such a call changes nothing.  The server
    stores objects by name (Deployments and Services by namespace and
    name); create refuses a name that is taken with AlreadyExists, and a
    namespaced object whose namespace is missing with NotFound; update
    replaces the stored object and answers NotFound when there is none.
    The server does not look at how a namespace is spelled. *)
Record Cluster : Type := mkCluster {
  namespaces : gmap string api.Namespace;
  deployments : gmap (string * string) apps.Deployment;
  services : gmap (string * string) api.Service
}.

Definition emptyCluster : Cluster :=
  {| namespaces := ∅; deployments := ∅; services := ∅ |}.

Definition alreadyExists : error :=
  StatusError StatusReasonAlreadyExists "already exists".

Definition notFound : error :=
  StatusError StatusReasonNotFound "not found".

Definition clusterInvoke (c : call) (k : Cluster) : option error * Cluster :=
  match c with
  | NamespacesCreate n =>
      let key := meta.Name (api.ns_ObjectMeta n) in
      match namespaces k !! key with
      | Some _ => (Some alreadyExists, k)
      | None =>
          (None, {| namespaces := <[key := n]> (namespaces k);
                    deployments := deployments k;
                    services := services k |})
      end
  | NamespacesUpdate n =>
      let key := meta.Name (api.ns_ObjectMeta n) in
      match rest.nameError key, namespaces k !! key with
      | Some err, _ => (Some err, k)
      | None, Some _ =>
          (None, {| namespaces := <[key := n]> (namespaces k);
                    deployments := deployments k;
                    services := services k |})
      | None, None => (Some notFound, k)
      end
  | DeploymentsCreate ns d =>
      let key := (ns, meta.Name (apps.dep_ObjectMeta d)) in
      match rest.Post ns, namespaces k !! ns, deployments k !! key with
      | Some err, _, _ => (Some err, k)
      | None, None, _ => (Some notFound, k)
      | None, Some _, Some _ => (Some alreadyExists, k)
      | None, Some _, None =>
          (None, {| namespaces := namespaces k;
                    deployments := <[key := d]> (deployments k);
                    services := services k |})
      end
  | DeploymentsUpdate ns d =>
      let key := (ns, meta.Name (apps.dep_ObjectMeta d)) in
      match rest.Put ns (meta.Name (apps.dep_ObjectMeta d)),
            deployments k !! key with
      | Some err, _ => (Some err, k)
      | None, Some _ =>
          (None, {| namespaces := namespaces k;
                    deployments := <[key := d]> (deployments k);
                    services := services k |})
      | None, None => (Some notFound, k)
      end
  | ServicesCreate ns s =>
      let key := (ns, meta.Name (api.svc_ObjectMeta s)) in
      match rest.Post ns, namespaces k !! ns, services k !! key with
      | Some err, _, _ => (Some err, k)
      | None, None, _ => (Some notFound, k)
      | None, Some _, Some _ => (Some alreadyExists, k)
      | None, Some _, None =>
          (None, {| namespaces := namespaces k;
                    deployments := deployments k;
                    services := <[key := s]> (services k) |})
      end
  | ServicesUpdate ns s =>
      let key := (ns, meta.Name (api.svc_ObjectMeta s)) in
      match rest.Put ns (meta.Name (api.svc_ObjectMeta s)),
            services k !! key with
      | Some err, _ => (Some err, k)
      | None, Some _ =>
          (None, {| namespaces := namespaces k;
                    deployments := deployments k;
                    services := <[key := s]> (services k) |})
      | None, None => (Some notFound, k)
      end
  end.

Definition cluster : Client :=
  {| cstate := Cluster; invoke := clusterInvoke |}.

(** What a run of [Start] leaves in the reference cluster, from any state
    of it: the namespace when it was missing, and the Deployment and the
    Service stored under their names. *)
Definition provisioned (o : GreetingOperator) (k : Cluster) : Cluster :=
  {| namespaces :=
       match namespaces k !! namespace o with
       | Some _ => namespaces k
       | None => <[namespace o := namespaceObject o]> (namespaces k)
       end;
     deployments :=
       <[(namespace o, "greeting") := greetingDeployment o]> (deployments k);
     services :=
       <[(namespace o, "greeting") := serviceObject o]> (services k) |}.

(** The reference cluster once the namespace of [o] is there. *)
Definition withNamespace (o : GreetingOperator) (k : Cluster) : Cluster :=
  {| namespaces :=
       match namespaces k !! namespace o with
       | Some _ => namespaces k
       | None => <[namespace o := namespaceObject o]> (namespaces k)
       end;
     deployments := deployments k;
     services := services k |}.



(** A client that refuses nothing but a create of what is already there:
    every call answers nil, or, for a create call, "already exists". *)
Definition lenient (cl : Client) : Prop :=
  ∀ (c : call) (s : cstate cl),
    match (invoke cl c s).1 with
    | None => True
    | Some err => isUpdateCall c = false ∧ IsAlreadyExists err = true
    end.

(** A mock whose create call for a Deployment always answers "already
    exists" and whose other calls all succeed; it has no state. *)
Definition conflictMock : Client :=
  {| cstate := unit;
     invoke := λ c s,
       match c with
       | DeploymentsCreate _ _ => (Some alreadyExists, s)
       | _ => (None, s)
       end |}.

(** The configurations of the two scenarios. *)
Definition scenario : GreetingOperator :=
  {| image := "greeting:latest";
     port := 80;
     namespace := "default";
     replicas := 1;
     name := "Foo Bar" |}.

Definition scenario3 : GreetingOperator :=
  {| image := "greeting:latest";
     port := 80;
     namespace := "default";
     replicas := 3;
     name := "Foo Bar" |}.

(** The properties of a built Deployment that are stated below. *)

(** The label selector's match-labels are the pod template's labels, and
    both are {app: greeting}. *)
Definition selectorMatchesTemplate (d : apps.Deployment) : Prop :=
  ∃ sel,
    apps.Selector (apps.dep_Spec d) = Some sel ∧
    meta.MatchLabels sel =
      meta.Labels (api.tpl_ObjectMeta (apps.Template (apps.dep_Spec d))) ∧
    meta.MatchLabels sel = {[ "app" := "greeting" ]}.

(** Named "greeting"; one container, with the given image, an environment
    variable NAME of the given value, a liveness probe on path /health and
    image-pull policy "never"; restart policy "always". *)
Definition greetingWorkload (img nm : string) (d : apps.Deployment) : Prop :=
  meta.Name (apps.dep_ObjectMeta d) = "greeting" ∧
  api.pod_RestartPolicy (api.tpl_Spec (apps.Template (apps.dep_Spec d)))
    = api.RestartPolicyAlways ∧
  ∃ c,
    containersOf d = [c] ∧
    api.c_Image c = img ∧
    {| api.env_Name := "NAME"; api.env_Value := nm |} ∈ api.c_Env c ∧
    api.http_Path <$> livenessGet c = Some "/health" ∧
    api.c_ImagePullPolicy c = api.PullNever.

(** One container, whose declared port and whose liveness probe port are
    both 80. *)
Definition servesOn80 (d : apps.Deployment) : Prop :=
  ∃ c,
    containersOf d = [c] ∧
    api.cp_ContainerPort <$> api.c_Ports c = [80] ∧
    api.http_Port <$> livenessGet c = Some (intstr.FromInt 80).

(** A Service port without its target port. *)
Definition exposedPort (sp : api.ServicePort) : string * api.Protocol * Z :=
  (api.sp_Name sp, api.sp_Protocol sp, api.sp_Port sp).

(** Surroundings in which the operator is built without error, and the
    flags of an invocation with [--port 8080]. *)
Definition inCluster : Env :=
  {| InClusterConfig := None; NewForConfig := None |}.

Definition port8080Cli : cliContext :=
  {| flag_image := "greeting:latest";
     flag_port := 8080;
     flag_namespace := api.NamespaceDefault;
     flag_replicas := 1;
     flag_name := "anonymous" |}.

(* ===================================================================== *)
(** ** Calls with their answers *)
(* ===================================================================== *)

(** The calls a program makes against a client, each with the answer it
    got. *)
Fixpoint answers {A : Type} (cl : Client) (p : prog A) (s : cstate cl)
  : list (call * option error) :=
  match p with
  | Ret _ => []
  | Call c k =>
      let '(r, s') := invoke cl c s in
      (c, r) :: answers cl (k r) s'
  end.

(** An answer the operator does not go on from: an error of an update
    call, or an error of a create call other than "already exists". *)
Definition fatal (c : call) (r : option error) : bool :=
  match r with
  | None => false
  | Some err => isUpdateCall c || negb (IsAlreadyExists err)
  end.

(** The prefix the operator puts before the error of a call; it has none
    for an update of a namespace, a call it never makes. *)
Definition stage (c : call) : option string :=
  match c with
  | NamespacesCreate _ => Some "create namespace: "
  | NamespacesUpdate _ => None
  | DeploymentsCreate _ _ => Some "create deployment: "
  | DeploymentsUpdate _ _ => Some "update deployment: "
  | ServicesCreate _ _ => Some "create service: "
  | ServicesUpdate _ _ => Some "update service: "
  end.

(** What an operation returns when [c], answered [r], was its last call. *)
Definition blame (c : call) (r : option error) : option error :=
  match r, stage c with
  | Some err, Some prefix =>
      if fatal c r then Some (Errorf prefix err) else None
  | _, _ => None
  end.

(** The namespace a call is about. *)
Definition callNamespace (c : call) : string :=
  match c with
  | NamespacesCreate n | NamespacesUpdate n => meta.Name (api.ns_ObjectMeta n)
  | DeploymentsCreate ns _ | DeploymentsUpdate ns _ => ns
  | ServicesCreate ns _ | ServicesUpdate ns _ => ns
  end.

(** The last call of [p], run from [s], decides what [p] returns; no call
    before it got a fatal answer. *)
Definition decidedByLast (cl : Client) (p : prog (option error))
    (s : cstate cl) : Prop :=
  ∃ h c r,
    answers cl p s = h ++ [(c, r)] ∧
    Forall (λ x, fatal x.1 x.2 = false) h ∧
    is_Some (stage c) ∧
    result (exec cl p s) = blame c r.

(* ===================================================================== *)
(** ** cmd/greeting-server/main.go *)
(* ===================================================================== *)

Module server.

Definition StatusOK : Z := 200.
Definition StatusInternalServerError : Z := 500.

(** GreetingServer *)
Record GreetingServer : Type := mkGreetingServer {
  Name : string
}.

(** The two methods of [http.ResponseWriter] the handlers use.  [Write]
    answers [(n, err)]; the handlers look at the error only. *)
Inductive wcall : Type :=
| Write (b : string)
| WriteHeader (statusCode : Z).

Inductive handler : Type :=
| Done
| DoWrite (b : string) (k : option error → handler)
| DoWriteHeader (statusCode : Z) (k : handler).

(** [fmt.Sprintf("I am %s", s.Name)] *)
Definition greeting (s : GreetingServer) : string :=
  String.append "I am " (Name s).

Definition HandleGreet (s : GreetingServer) : handler :=
  let body := greeting s in
  DoWrite body (λ r,
    match r with
    | Some err => DoWriteHeader StatusInternalServerError Done
    | None => Done
    end).

Definition HandleHealthcheck (s : GreetingServer) : handler :=
  DoWriteHeader StatusOK Done.

(** The handlers the Action registers with [http.HandleFunc], in its
    order. *)
Definition routes (s : GreetingServer) : list (string * handler) :=
  [ ("/health", HandleHealthcheck s); ("/greet", HandleGreet s) ].

(** The handler registered under exactly this pattern, if any. *)
Fixpoint registered (rs : list (string * handler)) (pattern : string)
  : option handler :=
  match rs with
  | [] => None
  | (p, h) :: rs' => if String.eqb p pattern then Some h else registered rs' pattern
  end.

(** A response writer: some state, and what the two methods do to it. *)
Record ResponseWriter : Type := mkResponseWriter {
  wstate : Type;
  rwWrite : string → wstate → option error * wstate;
  rwWriteHeader : Z → wstate → wstate
}.

(** Running a handler against a response writer, recording its calls. *)
Fixpoint serve (w : ResponseWriter) (h : handler) (s : wstate w)
  : wstate w * list wcall :=
  match h with
  | Done => (s, [])
  | DoWrite b k =>
      let '(r, s1) := rwWrite w b s in
      let '(s2, t) := serve w (k r) s1 in
      (s2, Write b :: t)
  | DoWriteHeader code k =>
      let '(s2, t) := serve w k (rwWriteHeader w code s) in
      (s2, WriteHeader code :: t)
  end.

(** A response as net/http documents it: the status goes out once, with
    the first [WriteHeader] or, as 200, with the first [Write] when there
    was none before; a later [WriteHeader] changes nothing.  [Broken]
    makes every [Write] fail after the status went out. *)
Record Response : Type := mkResponse {
  Code : option Z;
  Body : string;
  Broken : bool
}.

Definition fresh (broken : bool) : Response :=
  {| Code := None; Body := ""; Broken := broken |}.

Definition responseWriteHeader (statusCode : Z) (r : Response) : Response :=
  match Code r with
  | Some _ => r
  | None => {| Code := Some statusCode; Body := Body r; Broken := Broken r |}
  end.

Definition responseWrite (b : string) (r : Response)
  : option error * Response :=
  let r1 := responseWriteHeader StatusOK r in
  if Broken r1 then (Some (PlainError "write: broken pipe"), r1)
  else (None, {| Code := Code r1;
                 Body := String.append (Body r1) b;
                 Broken := Broken r1 |}).

Definition response : ResponseWriter :=
  {| wstate := Response;
     rwWrite := responseWrite;
     rwWriteHeader := responseWriteHeader |}.

End server.

(* ===================================================================== *)
(** ** Running programs: general facts *)
(* ===================================================================== *)

Section Exec.

Context (cl : Client).

(** Running [bind p f] is running [p], then [f] on its result from the
    state [p] left, with the two traces one after the other. *)
Lemma exec_bind {A B : Type} (p : prog A) (f : A → prog B) (s : cstate cl) :
  exec cl (bind p f) s =
  let o1 := exec cl p s in
  let o2 := exec cl (f (result o1)) (final o1) in
  mkOutcome (result o2) (final o2) (trace o1 ++ trace o2).
Proof.
  revert s. induction p as [a | c k IH]; intros s; simpl.
  - by destruct (exec cl (f a) s).
  - destruct (invoke cl c s) as [r s']. simpl. by rewrite IH.
Qed.

Lemma exec_mbind {A B : Type} (p : prog A) (f : A → prog B) (s : cstate cl) :
  exec cl (p ≫= f) s =
  let o1 := exec cl p s in
  let o2 := exec cl (f (result o1)) (final o1) in
  mkOutcome (result o2) (final o2) (trace o1 ++ trace o2).
Proof. apply exec_bind. Qed.

(** The three ensure-operations, run against any client. *)

Lemma exec_createNamespace (o : GreetingOperator) (s : cstate cl) :
  exec cl (createNamespace o) s =
  let '(r, s') := invoke cl (NamespacesCreate (namespaceObject o)) s in
  mkOutcome
    match r with
    | Some err =>
        if IsAlreadyExists err then None
        else Some (Errorf "create namespace: " err)
    | None => None
    end
    s' [NamespacesCreate (namespaceObject o)].
Proof.
  unfold createNamespace. simpl.
  destruct (invoke cl _ s) as [[err|] s']; [|done].
  by destruct (IsAlreadyExists err).
Qed.

Lemma exec_createDeployment (o : GreetingOperator) (s : cstate cl) :
  exec cl (createDeployment o) s =
  let d := greetingDeployment o in
  let '(r, s1) := invoke cl (DeploymentsCreate (namespace o) d) s in
  match r with
  | None => mkOutcome None s1 [DeploymentsCreate (namespace o) d]
  | Some err =>
      if IsAlreadyExists err then
        let '(r', s2) := invoke cl (DeploymentsUpdate (namespace o) d) s1 in
        mkOutcome
          match r' with
          | Some err' => Some (Errorf "update deployment: " err')
          | None => None
          end
          s2
          [DeploymentsCreate (namespace o) d; DeploymentsUpdate (namespace o) d]
      else
        mkOutcome (Some (Errorf "create deployment: " err)) s1
          [DeploymentsCreate (namespace o) d]
  end.
Proof.
  unfold createDeployment. simpl.
  destruct (invoke cl _ s) as [[err|] s1]; [|done].
  destruct (IsAlreadyExists err); simpl; [|done].
  by destruct (invoke cl _ s1) as [[err'|] s2].
Qed.

Lemma exec_createService (o : GreetingOperator) (s : cstate cl) :
  exec cl (createService o) s =
  let v := serviceObject o in
  let '(r, s1) := invoke cl (ServicesCreate (namespace o) v) s in
  match r with
  | None => mkOutcome None s1 [ServicesCreate (namespace o) v]
  | Some err =>
      if IsAlreadyExists err then
        let '(r', s2) := invoke cl (ServicesUpdate (namespace o) v) s1 in
        mkOutcome
          match r' with
          | Some err' => Some (Errorf "update service: " err')
          | None => None
          end
          s2
          [ServicesCreate (namespace o) v; ServicesUpdate (namespace o) v]
      else
        mkOutcome (Some (Errorf "create service: " err)) s1
          [ServicesCreate (namespace o) v]
  end.
Proof.
  unfold createService. simpl.
  destruct (invoke cl _ s) as [[err|] s1]; [|done].
  destruct (IsAlreadyExists err); simpl; [|done].
  by destruct (invoke cl _ s1) as [[err'|] s2].
Qed.

(** Each operation talks to its own resource kind only. *)

Lemma createNamespace_calls (o : GreetingOperator) (s : cstate cl) :
  Forall (λ c, isNamespaceCall c = true) (trace (exec cl (createNamespace o) s)).
Proof.
  rewrite exec_createNamespace. destruct (invoke cl _ s) as [r s'].
  simpl. by repeat constructor.
Qed.

Lemma createDeployment_calls (o : GreetingOperator) (s : cstate cl) :
  Forall (λ c, isDeploymentCall c = true) (trace (exec cl (createDeployment o) s)).
Proof.
  rewrite exec_createDeployment. simpl.
  destruct (invoke cl _ s) as [[err|] s1]; [|by repeat constructor].
  destruct (IsAlreadyExists err); [|by repeat constructor].
  destruct (invoke cl _ s1) as [r' s2]. by repeat constructor.
Qed.

Lemma createService_calls (o : GreetingOperator) (s : cstate cl) :
  Forall (λ c, isServiceCall c = true) (trace (exec cl (createService o) s)).
Proof.
  rewrite exec_createService. simpl.
  destruct (invoke cl _ s) as [[err|] s1]; [|by repeat constructor].
  destruct (IsAlreadyExists err); [|by repeat constructor].
  destruct (invoke cl _ s1) as [r' s2]. by repeat constructor.
Qed.

(** Every Deployment (Service) an operation hands to the cluster is the
    one it built from the operator's fields, in the operator's
    namespace. *)

Lemma createDeployment_submits (o : GreetingOperator) (s : cstate cl) :
  let sent := deploymentsOf (trace (exec cl (createDeployment o) s)) in
  head sent = Some (namespace o, greetingDeployment o) ∧
  Forall (λ x, x = (namespace o, greetingDeployment o)) sent.
Proof.
  cbv zeta. rewrite exec_createDeployment. cbv zeta.
  destruct (invoke cl _ s) as [[err|] s1]; [|by repeat constructor].
  destruct (IsAlreadyExists err); [|by repeat constructor].
  destruct (invoke cl _ s1) as [r' s2]. by repeat constructor.
Qed.

Lemma createService_submits (o : GreetingOperator) (s : cstate cl) :
  let sent := servicesOf (trace (exec cl (createService o) s)) in
  head sent = Some (namespace o, serviceObject o) ∧
  Forall (λ x, x = (namespace o, serviceObject o)) sent.
Proof.
  cbv zeta. rewrite exec_createService. cbv zeta.
  destruct (invoke cl _ s) as [[err|] s1]; [|by repeat constructor].
  destruct (IsAlreadyExists err); [|by repeat constructor].
  destruct (invoke cl _ s1) as [r' s2]. by repeat constructor.
Qed.

(** A property of the built Deployment holds of every Deployment handed
    to the cluster. *)
Lemma createDeployment_submitted (P : apps.Deployment → Prop)
    (o : GreetingOperator) (s : cstate cl) :
  P (greetingDeployment o) →
  Forall (λ x, P x.2) (deploymentsOf (trace (exec cl (createDeployment o) s))).
Proof.
  intros HP. destruct (createDeployment_submits o s) as [_ Hall].
  eapply Forall_impl; [exact Hall|]. by intros x ->.
Qed.

Lemma createService_submitted (P : api.Service → Prop)
    (o : GreetingOperator) (s : cstate cl) :
  P (serviceObject o) →
  Forall (λ x, P x.2) (servicesOf (trace (exec cl (createService o) s))).
Proof.
  intros HP. destruct (createService_submits o s) as [_ Hall].
  eapply Forall_impl; [exact Hall|]. by intros x ->.
Qed.

(** The fallback of createDeployment: one update, with the Deployment that
    was offered to create, exactly when create answers "already exists". *)
Lemma createDeployment_conflict (o : GreetingOperator) (s s1 : cstate cl)
    (err : error) :
  invoke cl (DeploymentsCreate (namespace o) (greetingDeployment o)) s
    = (Some err, s1) →
  IsAlreadyExists err = true →
  updatesOf (trace (exec cl (createDeployment o) s)) =
    [DeploymentsUpdate (namespace o) (greetingDeployment o)].
Proof.
  intros Hc He. rewrite exec_createDeployment. cbv zeta. rewrite Hc, He.
  by destruct (invoke cl _ s1) as [r' s2].
Qed.

Lemma createDeployment_created (o : GreetingOperator) (s s1 : cstate cl) :
  invoke cl (DeploymentsCreate (namespace o) (greetingDeployment o)) s
    = (None, s1) →
  trace (exec cl (createDeployment o) s) =
    [DeploymentsCreate (namespace o) (greetingDeployment o)].
Proof. intros Hc. rewrite exec_createDeployment. cbv zeta. by rewrite Hc. Qed.

End Exec.

(* ===================================================================== *)
(** ** Start *)
(* ===================================================================== *)

Lemma exec_Start (cl : Client) (o : GreetingOperator) (s : cstate cl) :
  exec cl (Start o) s =
  let n := exec cl (createNamespace o) s in
  match result n with
  | Some err => mkOutcome (Some err) (final n) (trace n)
  | None =>
      let d := exec cl (createDeployment o) (final n) in
      match result d with
      | Some err => mkOutcome (Some err) (final d) (trace n ++ trace d)
      | None =>
          let v := exec cl (createService o) (final d) in
          mkOutcome (result v) (final v) (trace n ++ trace d ++ trace v)
      end
  end.
Proof.
  unfold Start.
  generalize (createNamespace o) (createDeployment o) (createService o).
  intros p1 p2 p3. rewrite exec_mbind. simpl.
  destruct (exec cl p1 s) as [[e1|] s1 t1]; simpl.
  { by rewrite app_nil_r. }
  rewrite exec_mbind. simpl.
  destruct (exec cl p2 s1) as [[e2|] s2 t2]; simpl.
  { by rewrite app_nil_r. }
  rewrite exec_mbind. simpl.
  destruct (exec cl p3 s2) as [[e3|] s3 t3]; simpl; by rewrite app_nil_r.
Qed.

Lemma Forall_kind_disjoint (P Q : call → bool) (t : list call) :
  (∀ c, P c = true → Q c = false) →
  Forall (λ c, P c = true) t → Forall (λ c, Q c = false) t.
Proof. intros HPQ Ht. by eapply Forall_impl. Qed.

(** C3.  [Start] runs the namespace, the deployment and the service
    operation in this order and hands back the first error as it is.  For
    every client and every state of it: the calls of [Start] are the
    namespace operation's calls, then (only when that one returned nil) the
    deployment operation's calls, then (only when that one returned nil
    too) the service operation's calls.  When the namespace operation
    fails, no Deployment or Service call is made; when the deployment
    operation fails, no Service call is made. *)
Theorem Start_order_first_error
  (cl : Client) (o : GreetingOperator) (s : cstate cl) :
  let n := exec cl (createNamespace o) s in
  let d := exec cl (createDeployment o) (final n) in
  let v := exec cl (createService o) (final d) in
  let st := exec cl (Start o) s in
  Forall (λ c, isNamespaceCall c = true) (trace n) ∧
  Forall (λ c, isDeploymentCall c = true) (trace d) ∧
  Forall (λ c, isServiceCall c = true) (trace v) ∧
  match result n, result d with
  | Some err, _ =>
      result st = Some err ∧ final st = final n ∧ trace st = trace n ∧
      Forall (λ c, isDeploymentCall c = false) (trace st) ∧
      Forall (λ c, isServiceCall c = false) (trace st)
  | None, Some err =>
      result st = Some err ∧ final st = final d ∧
      trace st = trace n ++ trace d ∧
      Forall (λ c, isServiceCall c = false) (trace st)
  | None, None =>
      result st = result v ∧ final st = final v ∧
      trace st = trace n ++ trace d ++ trace v
  end.
Proof.
  intros n d v st.
  assert (Hn := createNamespace_calls cl o s : Forall _ (trace n)).
  assert (Hd := createDeployment_calls cl o (final n) : Forall _ (trace d)).
  assert (Hv := createService_calls cl o (final d) : Forall _ (trace v)).
  assert (Hst := exec_Start cl o s : st = _). cbv zeta in Hst.
  fold n d v in Hst. clearbody n d v st.
  split_and!; try done.
  destruct (result n) as [e1|], (result d) as [e2|]; subst st; simpl;
    split_and!; try done;
    repeat (apply Forall_app; split);
    first [ by eapply Forall_kind_disjoint; [|exact Hn]; intros []
          | by eapply Forall_kind_disjoint; [|exact Hd]; intros [] ].
Qed.

(** Against a lenient client no error reaches the caller of [Start]. *)
Section Lenient.

Context (cl : Client) (Hcl : lenient cl) (o : GreetingOperator).

Lemma createNamespace_lenient (s : cstate cl) :
  result (exec cl (createNamespace o) s) = None.
Proof.
  rewrite exec_createNamespace.
  pose proof (Hcl (NamespacesCreate (namespaceObject o)) s) as H1.
  destruct (invoke cl _ s) as [[e|] s1]; cbn [fst] in H1; [|done].
  by destruct H1 as [_ ->].
Qed.

Lemma createDeployment_lenient (s : cstate cl) :
  result (exec cl (createDeployment o) s) = None.
Proof.
  rewrite exec_createDeployment. cbv zeta.
  pose proof (Hcl (DeploymentsCreate (namespace o) (greetingDeployment o)) s)
    as H1.
  destruct (invoke cl _ s) as [[e|] s1]; cbn [fst] in H1; [|done].
  destruct H1 as [_ ->].
  pose proof (Hcl (DeploymentsUpdate (namespace o) (greetingDeployment o)) s1)
    as H2.
  destruct (invoke cl _ s1) as [[e'|] s2]; cbn [fst] in H2; [|done].
  by destruct H2.
Qed.

Lemma createService_lenient (s : cstate cl) :
  result (exec cl (createService o) s) = None.
Proof.
  rewrite exec_createService. cbv zeta.
  pose proof (Hcl (ServicesCreate (namespace o) (serviceObject o)) s) as H1.
  destruct (invoke cl _ s) as [[e|] s1]; cbn [fst] in H1; [|done].
  destruct H1 as [_ ->].
  pose proof (Hcl (ServicesUpdate (namespace o) (serviceObject o)) s1) as H2.
  destruct (invoke cl _ s1) as [[e'|] s2]; cbn [fst] in H2; [|done].
  by destruct H2.
Qed.

Lemma Start_lenient (s : cstate cl) : result (exec cl (Start o) s) = None.
Proof.
  rewrite exec_Start. cbv zeta.
  rewrite createNamespace_lenient, createDeployment_lenient.
  apply createService_lenient.
Qed.

End Lenient.

Lemma conflictMock_lenient : lenient conflictMock.
Proof. intros [] []; by cbn. Qed.

(* ===================================================================== *)
(** ** createNamespace *)
(* ===================================================================== *)

(** C7.  createNamespace makes one create call, for a namespace object
    that has the configured name and nothing else, and no other call, in
    particular no update.  It returns nil when the create call succeeds
    and when it answers "already exists", and returns any other error of
    the create call (wrapped with "create namespace: "). *)
Theorem createNamespace_create_only
  (cl : Client) (o : GreetingOperator) (s : cstate cl) :
  let created : api.Namespace :=
    {| api.ns_ObjectMeta :=
         {| meta.Name := namespace o; meta.Labels := ∅ |} |} in
  let answer := invoke cl (NamespacesCreate created) s in
  let out := exec cl (createNamespace o) s in
  trace out = [NamespacesCreate created] ∧
  updatesOf (trace out) = [] ∧
  final out = answer.2 ∧
  result out =
    match answer.1 with
    | None => None
    | Some err =>
        if IsAlreadyExists err then None
        else Some (Errorf "create namespace: " err)
    end.
Proof.
  cbv zeta. rewrite exec_createNamespace. unfold namespaceObject.
  by destruct (invoke cl _ s) as [[err|] s'].
Qed.

(* ===================================================================== *)
(** ** Names the client lets through *)
(* ===================================================================== *)

Lemma labelChar_differs (c ch : ascii) :
  validation.isLabelChar c = true →
  validation.isLabelChar ch = false →
  Ascii.eqb c ch = false.
Proof.
  intros Hc Hch. destruct (Ascii.eqb c ch) eqn:E; [|done].
  apply Ascii.eqb_eq in E. congruence.
Qed.

Lemma label_contains (ns : string) (ch : ascii) :
  validation.allChars validation.isLabelChar ns = true →
  validation.isLabelChar ch = false →
  rest.contains ch ns = false.
Proof.
  intros Hall Hch. induction ns as [|c ns IH]; [done|].
  simpl in *. apply andb_prop in Hall as [Hc Hns].
  by rewrite (labelChar_differs c ch), IH.
Qed.

(** A DNS label passes the client's checks of a namespace. *)
Lemma label_Post (ns : string) :
  validation.IsDNS1123Label ns = true → rest.Post ns = None.
Proof.
  unfold validation.IsDNS1123Label. intros H.
  apply andb_prop in H as [H _]. apply andb_prop in H as [H Hfirst].
  apply andb_prop in H as [_ Hall].
  unfold rest.Post, rest.namespaceError, rest.IsValidPathSegmentName.
  rewrite !label_contains by done.
  destruct (String.eqb ns ".") eqn:E1.
  { apply String.eqb_eq in E1. by subst. }
  destruct (String.eqb ns "..") eqn:E2.
  { apply String.eqb_eq in E2. by subst. }
  destruct (String.eqb ns "") eqn:E3; [|done].
  apply String.eqb_eq in E3. by subst.
Qed.

Lemma Post_Put_greeting (ns : string) :
  rest.Post ns = None → rest.Put ns "greeting" = None.
Proof.
  unfold rest.Post, rest.Put.
  destruct (rest.namespaceError ns); [done|].
  by destruct (String.eqb ns "").
Qed.

(** What the client refuses with is no answer of the server. *)
Lemma Post_plain (ns : string) (err : error) :
  rest.Post ns = Some err → IsAlreadyExists err = false.
Proof.
  unfold rest.Post, rest.namespaceError.
  destruct (rest.IsValidPathSegmentName ns); [|by intros [= <-]].
  destruct (String.eqb ns ""); [by intros [= <-]|done].
Qed.

(* ===================================================================== *)
(** ** Start against the reference cluster *)
(* ===================================================================== *)

Lemma createNamespace_on_cluster (o : GreetingOperator) (k : Cluster) :
  exec cluster (createNamespace o) k =
  mkOutcome None (withNamespace o k) [NamespacesCreate (namespaceObject o)].
Proof.
  rewrite exec_createNamespace. unfold withNamespace.
  cbn [invoke cluster clusterInvoke namespaceObject api.ns_ObjectMeta meta.Name].
  destruct (namespaces k !! namespace o); [|done].
  by destruct k.
Qed.

Lemma withNamespace_lookup (o : GreetingOperator) (k : Cluster) :
  is_Some (namespaces (withNamespace o k) !! namespace o).
Proof.
  unfold withNamespace. cbn [namespaces].
  destruct (namespaces k !! namespace o) eqn:E; [by rewrite E|].
  rewrite lookup_insert_eq. by eexists.
Qed.

Lemma createDeployment_on_cluster (o : GreetingOperator) (k : Cluster) :
  rest.Post (namespace o) = None →
  is_Some (namespaces k !! namespace o) →
  result (exec cluster (createDeployment o) k) = None ∧
  final (exec cluster (createDeployment o) k) =
    {| namespaces := namespaces k;
       deployments :=
         <[(namespace o, "greeting") := greetingDeployment o]> (deployments k);
       services := services k |}.
Proof.
  intros Hpost [n Hn]. rewrite exec_createDeployment.
  cbn [invoke cluster clusterInvoke greetingDeployment apps.dep_ObjectMeta
       objMeta meta.Name].
  rewrite Hpost, Hn, (Post_Put_greeting _ Hpost).
  destruct (deployments k !! (namespace o, "greeting")) as [d|] eqn:Hd;
    [|done].
  cbn [IsAlreadyExists ReasonForError alreadyExists].
  by rewrite Hd.
Qed.

Lemma createService_on_cluster (o : GreetingOperator) (k : Cluster) :
  rest.Post (namespace o) = None →
  is_Some (namespaces k !! namespace o) →
  result (exec cluster (createService o) k) = None ∧
  final (exec cluster (createService o) k) =
    {| namespaces := namespaces k;
       deployments := deployments k;
       services :=
         <[(namespace o, "greeting") := serviceObject o]> (services k) |}.
Proof.
  intros Hpost [n Hn]. rewrite exec_createService.
  cbn [invoke cluster clusterInvoke serviceObject api.svc_ObjectMeta meta.Name].
  rewrite Hpost, Hn, (Post_Put_greeting _ Hpost).
  destruct (services k !! (namespace o, "greeting")) as [v|] eqn:Hv;
    [|done].
  cbn [IsAlreadyExists ReasonForError alreadyExists].
  by rewrite Hv.
Qed.

Lemma Start_on_cluster (o : GreetingOperator) (k : Cluster) :
  rest.Post (namespace o) = None →
  result (exec cluster (Start o) k) = None ∧
  final (exec cluster (Start o) k) = provisioned o k.
Proof.
  intros Hpost.
  rewrite exec_Start, createNamespace_on_cluster. cbv zeta.
  cbn [result final trace].
  pose proof (withNamespace_lookup o k) as Hns.
  set (k1 := withNamespace o k) in *.
  destruct (createDeployment_on_cluster o k1 Hpost Hns) as [-> Hk2].
  set (k2 := final (exec cluster (createDeployment o) k1)) in *.
  assert (Hns2 : is_Some (namespaces k2 !! namespace o)) by by rewrite Hk2.
  destruct (createService_on_cluster o k2 Hpost Hns2) as [Hr3 Hk3].
  cbn [result final]. split; [done|].
  by rewrite Hk3, Hk2.
Qed.

(** With a namespace the client refuses, the run gets as far as the
    namespace and stops at the create of the Deployment. *)
Lemma Start_on_cluster_refused (o : GreetingOperator) (k : Cluster)
    (err : error) :
  rest.Post (namespace o) = Some err →
  exec cluster (Start o) k =
  mkOutcome (Some (Errorf "create deployment: " err)) (withNamespace o k)
    [NamespacesCreate (namespaceObject o);
     DeploymentsCreate (namespace o) (greetingDeployment o)].
Proof.
  intros Hpost.
  rewrite exec_Start, createNamespace_on_cluster. cbv zeta.
  cbn [result final trace]. rewrite exec_createDeployment.
  cbn [invoke cluster clusterInvoke]. rewrite Hpost.
  by rewrite (Post_plain _ _ Hpost).
Qed.

Lemma provisioned_idem (o : GreetingOperator) (k : Cluster) :
  provisioned o (provisioned o k) = provisioned o k.
Proof.
  unfold provisioned. cbn [namespaces deployments services].
  rewrite !insert_insert_eq. f_equal.
  destruct (namespaces k !! namespace o) eqn:E; [by rewrite E|].
  by rewrite lookup_insert_eq.
Qed.




(* ===================================================================== *)
(** ** The Deployment that createDeployment builds *)
(* ===================================================================== *)

Lemma greetingDeployment_replicas (o : GreetingOperator) :
  replicaCount (greetingDeployment o) = Some 1.
Proof. reflexivity. Qed.

Lemma greetingDeployment_selector (o : GreetingOperator) :
  selectorMatchesTemplate (greetingDeployment o).
Proof. eexists. by split_and!. Qed.

Lemma greetingDeployment_workload (o : GreetingOperator) :
  greetingWorkload (image o) (name o) (greetingDeployment o).
Proof.
  split_and!; [done..|]. eexists. split_and!; [done..| |done|done].
  apply list_elem_of_singleton. reflexivity.
Qed.

Lemma greetingDeployment_servesOn80 (o : GreetingOperator) :
  servesOn80 (greetingDeployment o).
Proof. eexists. by split_and!. Qed.

(** C8.  In the Deployment that createDeployment builds, and so in every
    Deployment it hands to the cluster by create or by update, the label
    selector's match-labels equal the pod template's labels, and both are
    {app: greeting}. *)
Theorem createDeployment_selector_matches_template (o : GreetingOperator) :
  selectorMatchesTemplate (greetingDeployment o) ∧
  ∀ (cl : Client) (s : cstate cl),
    let sent := deploymentsOf (trace (exec cl (createDeployment o) s)) in
    head sent = Some (namespace o, greetingDeployment o) ∧
    Forall (λ x, selectorMatchesTemplate x.2) sent.
Proof.
  split; [apply greetingDeployment_selector|]. intros cl s. split.
  - apply createDeployment_submits.
  - apply createDeployment_submitted, greetingDeployment_selector.
Qed.

(** C9.  The Deployment that createDeployment builds, and so every
    Deployment it hands to the cluster, is named "greeting", has exactly
    one container, whose image is the configured image, which carries the
    environment variable NAME with the configured display name, has a
    liveness probe with HTTP path "/health" and image-pull policy "never";
    the pod's restart policy is "always". *)
Theorem createDeployment_workload (o : GreetingOperator) :
  greetingWorkload (image o) (name o) (greetingDeployment o) ∧
  ∀ (cl : Client) (s : cstate cl),
    let sent := deploymentsOf (trace (exec cl (createDeployment o) s)) in
    head sent = Some (namespace o, greetingDeployment o) ∧
    Forall (λ x, greetingWorkload (image o) (name o) x.2) sent.
Proof.
  split; [apply greetingDeployment_workload|]. intros cl s. split.
  - apply createDeployment_submits.
  - apply createDeployment_submitted, greetingDeployment_workload.
Qed.

(* ===================================================================== *)
(** ** The Service that createService builds *)
(* ===================================================================== *)





(* ===================================================================== *)
(** ** The configured port *)
(* ===================================================================== *)

(** C10.  The Deployment declares container port 80 and probes liveness
    on port 80, whatever the configured port: changing the port changes
    neither the built Deployment, which is the one handed to the cluster,
    nor the namespace and deployment operations.  Of the Service that is
    handed to the cluster, the target port is the configured port (as an
    int32) and nothing else changes with it. *)
Theorem port_only_in_service_target (o : GreetingOperator) (p : Z) :
  servesOn80 (greetingDeployment o) ∧
  greetingDeployment (withPort o p) = greetingDeployment o ∧
  createNamespace (withPort o p) = createNamespace o ∧
  createDeployment (withPort o p) = createDeployment o ∧
  (∀ (cl : Client) (s : cstate cl),
     let sent :=
       deploymentsOf (trace (exec cl (createDeployment (withPort o p)) s)) in
     head sent = Some (namespace o, greetingDeployment o) ∧
     Forall (λ x, servesOn80 x.2) sent) ∧
  (∀ (cl : Client) (s : cstate cl),
     let sent :=
       servicesOf (trace (exec cl (createService (withPort o p)) s)) in
     head sent = Some (namespace o, serviceObject (withPort o p)) ∧
     Forall (λ x, x.2 = serviceObject (withPort o p)) sent) ∧
  let v := api.svc_Spec (serviceObject o) in
  let v' := api.svc_Spec (serviceObject (withPort o p)) in
  api.sp_TargetPort <$> api.svc_Ports v' = [intstr.OfInt32 (intstr.int32 p)] ∧
  exposedPort <$> api.svc_Ports v' = exposedPort <$> api.svc_Ports v ∧
  api.svc_Selector v' = api.svc_Selector v ∧
  api.svc_Type v' = api.svc_Type v ∧
  api.svc_ObjectMeta (serviceObject (withPort o p))
    = api.svc_ObjectMeta (serviceObject o).
Proof.
  split_and!; try done.
  - apply greetingDeployment_servesOn80.
  - intros cl s. cbv zeta. split.
    + apply (createDeployment_submits cl (withPort o p) s).
    + apply createDeployment_submitted, greetingDeployment_servesOn80.
  - intros cl s. cbv zeta.
    destruct (createService_submits cl (withPort o p) s) as [Hhd Hall].
    split; [exact Hhd|].
    eapply Forall_impl; [exact Hall|]. by intros x ->.
Qed.

(* ===================================================================== *)
(** ** run *)
(* ===================================================================== *)

Lemma NewGreetingOperator_port (env : Env) (config : GreetingOperatorConfig) :
  match NewGreetingOperator env config with
  | inr op => port op = Port config
  | inl _ => True
  end.
Proof.
  unfold NewGreetingOperator.
  by destruct (InClusterConfig env), (NewForConfig env).
Qed.

Lemma Start_services (cl : Client) (o : GreetingOperator) (s : cstate cl) :
  Forall (λ x, x.2 = serviceObject o) (servicesOf (trace (exec cl (Start o) s))).
Proof.
  assert (Hkind : ∀ t, Forall (λ c, isServiceCall c = false) t →
                       servicesOf t = []).
  { induction 1 as [|c t Hc _ IH]; [done|].
    destruct c; try done; exact IH. }
  rewrite exec_Start. cbv zeta.
  pose proof (createNamespace_calls cl o s) as Hn.
  set (n := exec cl (createNamespace o) s) in *.
  pose proof (createDeployment_calls cl o (final n)) as Hd.
  set (d := exec cl (createDeployment o) (final n)) in *.
  pose proof (createService_submits cl o (final d)) as [_ Hv].
  set (v := exec cl (createService o) (final d)) in *.
  assert (Hn' : servicesOf (trace n) = []).
  { apply Hkind. eapply Forall_kind_disjoint; [|exact Hn]. by intros []. }
  assert (Hd' : servicesOf (trace d) = []).
  { apply Hkind. eapply Forall_kind_disjoint; [|exact Hd]. by intros []. }
  clearbody n d v.
  destruct (result n); cbn [trace]; [by rewrite Hn'|].
  destruct (result d); cbn [trace]; unfold servicesOf in *;
    rewrite ?omap_app, ?Hn', ?Hd'; [done|].
  simpl. eapply Forall_impl; [exact Hv|]. by intros x ->.
Qed.

Lemma Start_nil_service (cl : Client) (o : GreetingOperator) (s : cstate cl) :
  result (exec cl (Start o) s) = None →
  head (servicesOf (trace (exec cl (Start o) s)))
    = Some (namespace o, serviceObject o).
Proof.
  assert (Hkind : ∀ t, Forall (λ c, isServiceCall c = false) t →
                       servicesOf t = []).
  { induction 1 as [|c t Hc _ IH]; [done|].
    destruct c; try done; exact IH. }
  rewrite exec_Start. cbv zeta.
  pose proof (createNamespace_calls cl o s) as Hn.
  set (n := exec cl (createNamespace o) s) in *.
  pose proof (createDeployment_calls cl o (final n)) as Hd.
  set (d := exec cl (createDeployment o) (final n)) in *.
  pose proof (createService_submits cl o (final d)) as [Hv _].
  set (v := exec cl (createService o) (final d)) in *.
  assert (Hn' : servicesOf (trace n) = []).
  { apply Hkind. eapply Forall_kind_disjoint; [|exact Hn]. by intros []. }
  assert (Hd' : servicesOf (trace d) = []).
  { apply Hkind. eapply Forall_kind_disjoint; [|exact Hd]. by intros []. }
  clearbody n d v.
  destruct (result n); cbn [result trace]; [done|].
  destruct (result d); cbn [result trace]; [done|].
  intros _. unfold servicesOf in *. by rewrite !omap_app, Hn', Hd'.
Qed.

(** C6.  [run] builds the configuration without a Port, which is therefore
    0 whatever the port flag says.  [run] hands that configuration to
    NewGreetingOperator; when this fails, [run] returns its error and
    makes no call; otherwise the operator has the image, namespace,
    replicas and name of the flags and port 0, [run] makes the calls of
    [Start] of that operator, every Service it hands to the cluster has
    target port 0, and when [run] returns nil such a Service was handed
    over. *)
Theorem run_port_is_zero (env : Env) (cliCtx : cliContext) :
  Port (runConfig cliCtx) = 0 ∧
  match NewGreetingOperator env (runConfig cliCtx) with
  | inl err =>
      ∀ (cl : Client) (s : cstate cl),
        exec cl (run env cliCtx) s =
        mkOutcome (Some (Errorf "creating operator: " err)) s []
  | inr operator =>
      operator =
        {| image := flag_image cliCtx;
           port := 0;
           namespace := flag_namespace cliCtx;
           replicas := flag_replicas cliCtx;
           name := flag_name cliCtx |} ∧
      ∀ (cl : Client) (s : cstate cl),
        let st := exec cl (Start operator) s in
        let out := exec cl (run env cliCtx) s in
        out =
          mkOutcome
            match result st with
            | Some err => Some (Errorf "start operator: " err)
            | None => None
            end
            (final st) (trace st) ∧
        Forall (λ x, api.sp_TargetPort <$> api.svc_Ports (api.svc_Spec x.2)
                     = [intstr.OfInt32 0])
          (servicesOf (trace out)) ∧
        match result out with
        | None =>
            head (servicesOf (trace out))
              = Some (flag_namespace cliCtx, serviceObject operator)
        | Some _ => True
        end
  end.
Proof.
  split; [done|]. unfold run.
  assert (Hop : match NewGreetingOperator env (runConfig cliCtx) with
                | inr op =>
                    op = {| image := flag_image cliCtx; port := 0;
                            namespace := flag_namespace cliCtx;
                            replicas := flag_replicas cliCtx;
                            name := flag_name cliCtx |}
                | inl _ => True
                end).
  { unfold NewGreetingOperator.
    by destruct (InClusterConfig env), (NewForConfig env). }
  destruct (NewGreetingOperator env (runConfig cliCtx)) as [err|op]; [done|].
  split; [exact Hop|]. intros cl s. cbv zeta.
  rewrite exec_mbind. cbv zeta.
  pose proof (Start_services cl op s) as Hall.
  pose proof (Start_nil_service cl op s) as Hhd.
  destruct (exec cl (Start op) s) as [[e|] s' t]; cbn [result final trace] in *;
    rewrite app_nil_r; (split; [done|]); split; try done.
  - eapply Forall_impl; [exact Hall|]. intros x ->. by rewrite Hop.
  - eapply Forall_impl; [exact Hall|]. intros x ->. by rewrite Hop.
  - rewrite Hhd by done. by rewrite Hop.
Qed.

(** With [--port 8080], in surroundings where the operator is built and
    against the empty reference cluster, [run] returns nil and the stored
    Service has target port 0. *)
Example run_port8080_service :
  let out := exec cluster (run inCluster port8080Cli) emptyCluster in
  result out = None ∧
  (λ v, api.sp_TargetPort <$> api.svc_Ports (api.svc_Spec v))
    <$> services (final out) !! ("default", "greeting")
  = Some [intstr.FromInt 0].
Proof. vm_compute. done. Qed.

(* ===================================================================== *)
(** ** The replica count *)
(* ===================================================================== *)

(** createDeployment never reads the operator's [replicas]: two operators
    that differ in nothing else build the same Deployment. *)
Lemma greetingDeployment_replicas_unused (o : GreetingOperator) (r : N) :
  greetingDeployment
    {| image := image o; port := port o; namespace := namespace o;
       replicas := r; name := name o |}
  = greetingDeployment o.
Proof. reflexivity. Qed.

(** C1.  The run of the second scenario: [Start] with replicas 3 against
    the reference cluster as the run with replicas 1 left it.  It returns
    nil; the Deployment goes to the cluster twice, by create (answered
    "already exists") and by update; the Deployment handed over, and the
    one the cluster holds afterwards, has replica count 1, not the
    configured 3. *)
Theorem Start_replicas_3_submits_1 :
  let prior := final (exec cluster (Start scenario) emptyCluster) in
  let out := exec cluster (Start scenario3) prior in
  let d := greetingDeployment scenario3 in
  replicas scenario3 = 3%N ∧
  result out = None ∧
  filter (λ c, isDeploymentCall c = true) (trace out) =
    [DeploymentsCreate "default" d; DeploymentsUpdate "default" d] ∧
  replicaCount d = Some 1 ∧
  replicaCount <$> deployments (final out) !! ("default", "greeting")
    = Some (Some 1).
Proof. cbv zeta. split_and!; by vm_compute. Qed.

(** C2.  createDeployment with replicas 3 against the mock whose create
    call for a Deployment answers "already exists": it returns nil and
    makes exactly one update call, with the Deployment it offered to
    create, whose image is the configured one and whose container port is
    80; the replica count of that Deployment is 1, not the configured
    3. *)
Theorem createDeployment_conflict_update_replicas :
  let out := exec conflictMock (createDeployment scenario3) () in
  let d := greetingDeployment scenario3 in
  replicas scenario3 = 3%N ∧
  result out = None ∧
  trace out =
    [DeploymentsCreate "default" d; DeploymentsUpdate "default" d] ∧
  updatesOf (trace out) = [DeploymentsUpdate "default" d] ∧
  greetingWorkload "greeting:latest" "Foo Bar" d ∧
  servesOn80 d ∧
  replicaCount d = Some 1 ∧
  replicaCount d ≠ Some (Z.of_N (replicas scenario3)).
Proof.
  cbv zeta. split_and!; try by vm_compute.
  - apply (greetingDeployment_workload scenario3).
  - apply greetingDeployment_servesOn80.
Qed.

(* ===================================================================== *)
(** ** Answers: which call decides the outcome *)
(* ===================================================================== *)

Section Answers.

Context (cl : Client).

Lemma answers_trace {A : Type} (p : prog A) (s : cstate cl) :
  (answers cl p s).*1 = trace (exec cl p s).
Proof.
  revert s. induction p as [a | c k IH]; intros s; simpl; [done|].
  destruct (invoke cl c s) as [r s']. simpl. by rewrite IH.
Qed.

Lemma answers_mbind {A B : Type} (p : prog A) (f : A → prog B)
    (s : cstate cl) :
  answers cl (p ≫= f) s =
  answers cl p s ++
  answers cl (f (result (exec cl p s))) (final (exec cl p s)).
Proof.
  revert s. induction p as [a | c k IH]; intros s; [done|].
  change (Call c k ≫= f) with (Call c (λ r, k r ≫= f)). simpl.
  destruct (invoke cl c s) as [r s']. simpl. by rewrite IH.
Qed.

Lemma blame_None (c : call) (r : option error) :
  is_Some (stage c) → blame c r = None → fatal c r = false.
Proof.
  intros [prefix Hst]. unfold blame. rewrite Hst.
  destruct r as [err|]; [|done]. by destruct (fatal c (Some err)).
Qed.

Lemma createNamespace_decided (o : GreetingOperator) (s : cstate cl) :
  decidedByLast cl (createNamespace o) s.
Proof.
  unfold decidedByLast, createNamespace. simpl.
  destruct (invoke cl _ s) as [[err|] s1]; simpl.
  - exists [], (NamespacesCreate (namespaceObject o)), (Some err).
    unfold blame. simpl.
    destruct (IsAlreadyExists err); split_and!; by try eexists.
  - exists [], (NamespacesCreate (namespaceObject o)), None.
    split_and!; [done|done|by eexists|done].
Qed.

Lemma createDeployment_decided (o : GreetingOperator) (s : cstate cl) :
  decidedByLast cl (createDeployment o) s.
Proof.
  unfold decidedByLast, createDeployment. simpl.
  destruct (invoke cl _ s) as [[err|] s1]; simpl.
  - destruct (IsAlreadyExists err) eqn:He; simpl.
    + destruct (invoke cl _ s1) as [r' s2]. simpl.
      exists [(DeploymentsCreate (namespace o) (greetingDeployment o), Some err)],
        (DeploymentsUpdate (namespace o) (greetingDeployment o)), r'.
      split_and!; [by destruct r'| |by eexists|by destruct r'].
      repeat constructor. simpl. by rewrite He.
    + exists [], (DeploymentsCreate (namespace o) (greetingDeployment o)),
        (Some err).
      split_and!; [done|done|by eexists|].
      unfold blame. simpl. by rewrite He.
  - exists [], (DeploymentsCreate (namespace o) (greetingDeployment o)), None.
    split_and!; [done|done|by eexists|done].
Qed.

Lemma createService_decided (o : GreetingOperator) (s : cstate cl) :
  decidedByLast cl (createService o) s.
Proof.
  unfold decidedByLast, createService. simpl.
  destruct (invoke cl _ s) as [[err|] s1]; simpl.
  - destruct (IsAlreadyExists err) eqn:He; simpl.
    + destruct (invoke cl _ s1) as [r' s2]. simpl.
      exists [(ServicesCreate (namespace o) (serviceObject o), Some err)],
        (ServicesUpdate (namespace o) (serviceObject o)), r'.
      split_and!; [by destruct r'| |by eexists|by destruct r'].
      repeat constructor. simpl. by rewrite He.
    + exists [], (ServicesCreate (namespace o) (serviceObject o)), (Some err).
      split_and!; [done|done|by eexists|].
      unfold blame. simpl. by rewrite He.
  - exists [], (ServicesCreate (namespace o) (serviceObject o)), None.
    split_and!; [done|done|by eexists|done].
Qed.

(** [if err := p; err != nil { return err }] followed by the rest. *)
Lemma decided_then (p q : prog (option error)) (s : cstate cl) :
  decidedByLast cl p s →
  (∀ s', decidedByLast cl q s') →
  decidedByLast cl
    (p ≫= λ r, match r with Some err => Ret (Some err) | None => q end) s.
Proof.
  intros (h & c & r & Hh & Hall & Hst & Hres) Hq.
  unfold decidedByLast. rewrite answers_mbind, exec_mbind. cbv zeta.
  rewrite Hres. destruct (blame c r) as [e|] eqn:Hb; simpl.
  - exists h, c, r. rewrite app_nil_r. by rewrite Hb.
  - destruct (Hq (final (exec cl p s))) as (h' & c' & r' & Hh' & Hall' & Hst' & Hres').
    exists (h ++ [(c, r)] ++ h'), c', r'.
    rewrite Hh, Hh', <- !app_assoc. split_and!; [done| |done|].
    + apply Forall_app. split; [done|]. constructor; [|done].
      by apply blame_None.
    + by destruct (exec cl q _).
Qed.

Lemma decided_last (p : prog (option error)) (s : cstate cl) :
  decidedByLast cl p s →
  decidedByLast cl
    (p ≫= λ r, match r with Some err => Ret (Some err) | None => Ret None end)
    s.
Proof.
  intros (h & c & r & Hh & Hall & Hst & Hres).
  unfold decidedByLast. rewrite answers_mbind, exec_mbind. cbv zeta.
  exists h, c, r. rewrite Hres.
  destruct (blame c r) as [e|] eqn:Hb; simpl; by rewrite app_nil_r.
Qed.

Lemma Start_decided (o : GreetingOperator) (s : cstate cl) :
  decidedByLast cl (Start o) s.
Proof.
  unfold Start. apply decided_then; [apply createNamespace_decided|].
  intros s1. apply decided_then; [apply createDeployment_decided|].
  intros s2. apply decided_last, createService_decided.
Qed.

End Answers.

(** X1.  Whatever the client answers, [Start] stops at the first fatal
    answer: of the calls it made, none before the last got a fatal answer,
    and what [Start] returns is decided by the last one alone: nil when
    its answer is not fatal, and otherwise that error behind the prefix of
    its stage. *)
Theorem Start_stops_at_fatal_answer
  (cl : Client) (o : GreetingOperator) (s : cstate cl) :
  ∃ h c r,
    answers cl (Start o) s = h ++ [(c, r)] ∧
    Forall (λ x, fatal x.1 x.2 = false) h ∧
    is_Some (stage c) ∧
    result (exec cl (Start o) s) = blame c r.
Proof. apply Start_decided. Qed.


(** X3.  An error that [Start] returns carries the reason of the client's
    last answer through the wrapping, so the caller can still tell it
    apart; and it is "already exists" only when it comes from an update
    call, never from a create. *)
Theorem Start_error_reason
  (cl : Client) (o : GreetingOperator) (s : cstate cl) :
  match result (exec cl (Start o) s) with
  | None => True
  | Some e =>
      ∃ c err,
        last (answers cl (Start o) s) = Some (c, Some err) ∧
        fatal c (Some err) = true ∧
        ReasonForError e = ReasonForError err ∧
        IsAlreadyExists e && negb (isUpdateCall c) = false
  end.
Proof.
  destruct (Start_decided cl o s) as (h & c & r & Hh & _ & [prefix Hst] & Hres).
  rewrite Hres, Hh. unfold blame. rewrite Hst.
  destruct r as [err|]; [|done].
  destruct (fatal c (Some err)) eqn:Hf; [|done].
  exists c, err. rewrite last_snoc. split_and!; try done.
  unfold IsAlreadyExists, Errorf. simpl.
  unfold fatal, IsAlreadyExists in Hf.
  destruct (ReasonForError err), (isUpdateCall c); done.
Qed.

(* ===================================================================== *)
(** ** The calls of createService and of Start *)
(* ===================================================================== *)

(** X4.  createService falls back to update as createDeployment does: it
    makes one update call, with the Service it offered to create, when the
    create call answers "already exists", and no update call otherwise,
    neither after a successful create nor after any other error. *)
Theorem createService_fallback
  (cl : Client) (o : GreetingOperator) (s : cstate cl) :
  let answer := (invoke cl (ServicesCreate (namespace o) (serviceObject o)) s).1 in
  updatesOf (trace (exec cl (createService o) s)) =
    match answer with
    | Some err =>
        if IsAlreadyExists err
        then [ServicesUpdate (namespace o) (serviceObject o)]
        else []
    | None => []
    end.
Proof.
  cbv zeta. rewrite exec_createService. cbv zeta.
  destruct (invoke cl _ s) as [[err|] s1]; simpl; [|done].
  destruct (IsAlreadyExists err); [|done].
  by destruct (invoke cl _ s1) as [r' s2].
Qed.

Lemma createDeployment_trace_shape
  (cl : Client) (o : GreetingOperator) (s : cstate cl) :
  let c := DeploymentsCreate (namespace o) (greetingDeployment o) in
  let u := DeploymentsUpdate (namespace o) (greetingDeployment o) in
  trace (exec cl (createDeployment o) s) = [c] ∨
  trace (exec cl (createDeployment o) s) = [c; u].
Proof.
  cbv zeta. rewrite exec_createDeployment. cbv zeta.
  destruct (invoke cl _ s) as [[err|] s1]; [|by left].
  destruct (IsAlreadyExists err); [|by left].
  destruct (invoke cl _ s1) as [r' s2]. by right.
Qed.

Lemma createService_trace_shape
  (cl : Client) (o : GreetingOperator) (s : cstate cl) :
  let c := ServicesCreate (namespace o) (serviceObject o) in
  let u := ServicesUpdate (namespace o) (serviceObject o) in
  trace (exec cl (createService o) s) = [c] ∨
  trace (exec cl (createService o) s) = [c; u].
Proof.
  cbv zeta. rewrite exec_createService. cbv zeta.
  destruct (invoke cl _ s) as [[err|] s1]; [|by left].
  destruct (IsAlreadyExists err); [|by left].
  destruct (invoke cl _ s1) as [r' s2]. by right.
Qed.

Lemma createNamespace_trace
  (cl : Client) (o : GreetingOperator) (s : cstate cl) :
  trace (exec cl (createNamespace o) s) = [NamespacesCreate (namespaceObject o)].
Proof. rewrite exec_createNamespace. by destruct (invoke cl _ s). Qed.

(** X5.  Against any client [Start] begins with the create call for the
    namespace, makes at most five calls, all of them about the configured
    namespace, and never updates a namespace. *)
Theorem Start_calls_bounded
  (cl : Client) (o : GreetingOperator) (s : cstate cl) :
  let t := trace (exec cl (Start o) s) in
  head t = Some (NamespacesCreate (namespaceObject o)) ∧
  (length t ≤ 5)%nat ∧
  Forall (λ c, callNamespace c = namespace o) t ∧
  Forall (λ c, isNamespaceCall c && isUpdateCall c = false) t.
Proof.
  cbv zeta. rewrite exec_Start. cbv zeta.
  rewrite (createNamespace_trace cl o s).
  set (n := exec cl (createNamespace o) s).
  destruct (createDeployment_trace_shape cl o (final n)) as [Hd|Hd];
  set (d := exec cl (createDeployment o) (final n)) in *;
  destruct (createService_trace_shape cl o (final d)) as [Hv|Hv];
  set (v := exec cl (createService o) (final d)) in *;
  clearbody n d v;
  destruct (result n), (result d); cbn [trace]; rewrite ?Hd, ?Hv;
  split_and!; simpl; try done; try lia; by repeat constructor.
Qed.

(** X6.  When [Start] returns nil, the namespace, the Deployment and the
    Service built from the configuration have each been offered to the
    cluster by a create call. *)
Theorem Start_nil_offered_all
  (cl : Client) (o : GreetingOperator) (s : cstate cl) :
  result (exec cl (Start o) s) = None →
  let t := trace (exec cl (Start o) s) in
  NamespacesCreate (namespaceObject o) ∈ t ∧
  DeploymentsCreate (namespace o) (greetingDeployment o) ∈ t ∧
  ServicesCreate (namespace o) (serviceObject o) ∈ t.
Proof.
  cbv zeta. rewrite exec_Start. cbv zeta.
  rewrite (createNamespace_trace cl o s).
  set (n := exec cl (createNamespace o) s).
  destruct (createDeployment_trace_shape cl o (final n)) as [Hd|Hd];
  set (d := exec cl (createDeployment o) (final n)) in *;
  destruct (createService_trace_shape cl o (final d)) as [Hv|Hv];
  set (v := exec cl (createService o) (final d)) in *;
  clearbody n d v;
  destruct (result n), (result d); cbn [result trace]; try done;
  intros _; rewrite Hd, Hv; split_and!; set_solver.
Qed.

Lemma Start_nil_offered_all_witness :
  result (exec cluster (Start scenario) emptyCluster) = None ∧
  let t := trace (exec cluster (Start scenario) emptyCluster) in
  NamespacesCreate (namespaceObject scenario) ∈ t ∧
  DeploymentsCreate "default" (greetingDeployment scenario) ∈ t ∧
  ServicesCreate "default" (serviceObject scenario) ∈ t.
Proof.
  split; [by vm_compute|].
  apply (Start_nil_offered_all cluster scenario emptyCluster).
  by vm_compute.
Defined.

(* ===================================================================== *)
(** ** run and NewGreetingOperator *)
(* ===================================================================== *)

(** X7.  When the operator cannot be built, [run] makes no call at all and
    returns the cause behind "creating operator: " and the prefix of the
    step that failed; a failing in-cluster configuration is reported even
    if making the client would fail too. *)
Theorem run_without_operator
  (env : Env) (cliCtx : cliContext) (cl : Client) (s : cstate cl) :
  match InClusterConfig env, NewForConfig env with
  | Some err, _ =>
      exec cl (run env cliCtx) s =
      mkOutcome
        (Some (Errorf "creating operator: " (Errorf "in cluster config: " err)))
        s []
  | None, Some err =>
      exec cl (run env cliCtx) s =
      mkOutcome
        (Some (Errorf "creating operator: " (Errorf "new k8s client: " err)))
        s []
  | None, None =>
      trace (exec cl (run env cliCtx) s) ≠ []
  end.
Proof.
  unfold run, NewGreetingOperator.
  destruct (InClusterConfig env) as [e1|]; [done|].
  destruct (NewForConfig env) as [e2|]; [done|].
  rewrite exec_mbind. cbv zeta. cbn [trace].
  destruct (Start_calls_bounded cl
    {| image := Image (runConfig cliCtx); port := Port (runConfig cliCtx);
       namespace := Namespace (runConfig cliCtx);
       replicas := Replicas (runConfig cliCtx);
       name := Name (runConfig cliCtx) |} s) as [Hhd _].
  intros Heq. apply app_eq_nil in Heq as [Heq _].
  cbv zeta in Hhd. by rewrite Heq in Hhd.
Qed.

(** X8.  When the operator is built, [run] is [Start] of the operator made
    from the image, namespace, replicas and name flags and port 0: the
    same calls, the same final state, nil when [Start] returns nil and the
    error of [Start] behind "start operator: " otherwise. *)
Theorem run_with_operator
  (env : Env) (cliCtx : cliContext) (cl : Client) (s : cstate cl) :
  InClusterConfig env = None →
  NewForConfig env = None →
  let operator :=
    {| image := flag_image cliCtx;
       port := 0;
       namespace := flag_namespace cliCtx;
       replicas := flag_replicas cliCtx;
       name := flag_name cliCtx |} in
  let st := exec cl (Start operator) s in
  exec cl (run env cliCtx) s =
  mkOutcome
    match result st with
    | Some err => Some (Errorf "start operator: " err)
    | None => None
    end
    (final st) (trace st).
Proof.
  intros H1 H2. cbv zeta. unfold run, NewGreetingOperator.
  rewrite H1, H2. rewrite exec_mbind. cbv zeta.
  cbn [Image Port Namespace Replicas Name runConfig].
  destruct (exec cl (Start _) s) as [[e|] s' t]; simpl; by rewrite app_nil_r.
Qed.

Lemma run_with_operator_witness :
  InClusterConfig inCluster = None ∧
  NewForConfig inCluster = None ∧
  trace (exec cluster (run inCluster port8080Cli) emptyCluster) =
  trace (exec cluster
           (Start {| image := "greeting:latest"; port := 0;
                     namespace := "default"; replicas := 1;
                     name := "anonymous" |})
           emptyCluster).
Proof.
  split; [reflexivity|]. split; [reflexivity|].
  by rewrite (run_with_operator inCluster port8080Cli cluster emptyCluster
                eq_refl eq_refl).
Defined.

(* ===================================================================== *)
(** ** Start against the reference cluster, from any state *)
(* ===================================================================== *)

Lemma provisioned_namespace (o : GreetingOperator) (k : Cluster) :
  namespaces (provisioned o k) !! namespace o =
  Some (default (namespaceObject o) (namespaces k !! namespace o)).
Proof.
  unfold provisioned. cbn [namespaces].
  destruct (namespaces k !! namespace o) eqn:E; simpl; [done|].
  by rewrite lookup_insert_eq.
Qed.

(** X9.  For a configuration whose namespace is a valid namespace name (a
    DNS label), from any state of the reference cluster, whatever it holds
    under the operator's names, [Start] returns nil and leaves the
    namespace present and the Deployment and the Service as built from the
    configuration; a further run returns nil again and changes nothing. *)
Theorem Start_converges_from_any_state (o : GreetingOperator) (k : Cluster) :
  validation.IsDNS1123Label (namespace o) = true →
  let out := exec cluster (Start o) k in
  let again := exec cluster (Start o) (final out) in
  result out = None ∧
  is_Some (namespaces (final out) !! namespace o) ∧
  deployments (final out) !! (namespace o, "greeting")
    = Some (greetingDeployment o) ∧
  services (final out) !! (namespace o, "greeting")
    = Some (serviceObject o) ∧
  result again = None ∧
  final again = final out.
Proof.
  intros Hlabel. apply label_Post in Hlabel. cbv zeta.
  destruct (Start_on_cluster o k Hlabel) as [Hr Hk]. rewrite Hk.
  destruct (Start_on_cluster o (provisioned o k) Hlabel) as [Hr' Hk'].
  rewrite Hk', provisioned_idem, provisioned_namespace.
  split_and!; try done.
  - unfold provisioned. cbn [deployments]. apply lookup_insert_eq.
  - unfold provisioned. cbn [services]. apply lookup_insert_eq.
Qed.

Lemma Start_converges_from_any_state_witness :
  validation.IsDNS1123Label (namespace scenario3) = true ∧
  let k := final (exec cluster (Start scenario) emptyCluster) in
  let out := exec cluster (Start scenario3) k in
  result out = None ∧
  deployments (final out) !! ("default", "greeting")
    = Some (greetingDeployment scenario3).
Proof.
  split; [reflexivity|]. cbv zeta.
  destruct (Start_converges_from_any_state scenario3
              (final (exec cluster (Start scenario) emptyCluster)) eq_refl)
    as (Hr & _ & Hd & _).
  by split.
Defined.


Lemma withNamespace_same (o1 o2 : GreetingOperator) (k : Cluster) :
  namespace o1 = namespace o2 →
  withNamespace o2 (withNamespace o1 k) = withNamespace o2 k.
Proof.
  intros Hns. unfold withNamespace, namespaceObject.
  cbn [namespaces deployments services]. rewrite Hns. f_equal.
  destruct (namespaces k !! namespace o2) eqn:E; [by rewrite E|].
  by rewrite lookup_insert_eq.
Qed.

(** X11.  The last run wins: after a run for one configuration, a run for
    another configuration with the same namespace leaves the reference
    cluster exactly as if the first run had not happened. *)
Theorem Start_last_run_wins (o1 o2 : GreetingOperator) (k : Cluster) :
  namespace o1 = namespace o2 →
  final (exec cluster (Start o2) (final (exec cluster (Start o1) k)))
  = final (exec cluster (Start o2) k).
Proof.
  intros Hns. destruct (rest.Post (namespace o2)) as [err|] eqn:Hpost.
  - assert (Hpost1 : rest.Post (namespace o1) = Some err) by by rewrite Hns.
    rewrite (Start_on_cluster_refused o1 k err Hpost1). cbn [final].
    rewrite !(Start_on_cluster_refused o2 _ err Hpost). cbn [final].
    by apply withNamespace_same.
  - assert (Hpost1 : rest.Post (namespace o1) = None) by by rewrite Hns.
    destruct (Start_on_cluster o1 k Hpost1) as [_ ->].
    destruct (Start_on_cluster o2 (provisioned o1 k) Hpost) as [_ ->].
    destruct (Start_on_cluster o2 k Hpost) as [_ ->].
    unfold provisioned. cbn [namespaces deployments services].
    rewrite Hns, !insert_insert_eq. f_equal.
    unfold namespaceObject. rewrite Hns.
    destruct (namespaces k !! namespace o2) eqn:E; [by rewrite E|].
    by rewrite lookup_insert_eq.
Qed.

Lemma Start_last_run_wins_witness :
  namespace scenario = namespace scenario3 ∧
  final (exec cluster (Start scenario3)
           (final (exec cluster (Start scenario) emptyCluster)))
  = final (exec cluster (Start scenario3) emptyCluster).
Proof.
  split; [reflexivity|].
  exact (Start_last_run_wins scenario scenario3 emptyCluster eq_refl).
Defined.

Lemma createDeployment_trace_on_cluster (o : GreetingOperator) (k : Cluster) :
  rest.Post (namespace o) = None →
  is_Some (namespaces k !! namespace o) →
  trace (exec cluster (createDeployment o) k) =
  DeploymentsCreate (namespace o) (greetingDeployment o) ::
  match deployments k !! (namespace o, "greeting") with
  | Some _ => [DeploymentsUpdate (namespace o) (greetingDeployment o)]
  | None => []
  end.
Proof.
  intros Hpost [n Hn]. rewrite exec_createDeployment.
  cbn [invoke cluster clusterInvoke greetingDeployment apps.dep_ObjectMeta
       objMeta meta.Name].
  rewrite Hpost, Hn, (Post_Put_greeting _ Hpost).
  destruct (deployments k !! (namespace o, "greeting")) as [d|] eqn:Hd;
    [|done].
  cbn [IsAlreadyExists ReasonForError alreadyExists].
  by rewrite Hd.
Qed.

Lemma createService_trace_on_cluster (o : GreetingOperator) (k : Cluster) :
  rest.Post (namespace o) = None →
  is_Some (namespaces k !! namespace o) →
  trace (exec cluster (createService o) k) =
  ServicesCreate (namespace o) (serviceObject o) ::
  match services k !! (namespace o, "greeting") with
  | Some _ => [ServicesUpdate (namespace o) (serviceObject o)]
  | None => []
  end.
Proof.
  intros Hpost [n Hn]. rewrite exec_createService.
  cbn [invoke cluster clusterInvoke serviceObject api.svc_ObjectMeta meta.Name].
  rewrite Hpost, Hn, (Post_Put_greeting _ Hpost).
  destruct (services k !! (namespace o, "greeting")) as [v|] eqn:Hv;
    [|done].
  cbn [IsAlreadyExists ReasonForError alreadyExists].
  by rewrite Hv.
Qed.

Lemma Start_trace_on_cluster (o : GreetingOperator) (k : Cluster) :
  rest.Post (namespace o) = None →
  trace (exec cluster (Start o) k) =
    [NamespacesCreate (namespaceObject o);
     DeploymentsCreate (namespace o) (greetingDeployment o)] ++
    match deployments k !! (namespace o, "greeting") with
    | Some _ => [DeploymentsUpdate (namespace o) (greetingDeployment o)]
    | None => []
    end ++
    [ServicesCreate (namespace o) (serviceObject o)] ++
    match services k !! (namespace o, "greeting") with
    | Some _ => [ServicesUpdate (namespace o) (serviceObject o)]
    | None => []
    end.
Proof.
  intros Hpost.
  rewrite exec_Start, createNamespace_on_cluster. cbv zeta.
  cbn [result final trace].
  pose proof (withNamespace_lookup o k) as Hns.
  assert (Hdep : deployments (withNamespace o k) = deployments k) by done.
  assert (Hsvc : services (withNamespace o k) = services k) by done.
  set (k1 := withNamespace o k) in *.
  destruct (createDeployment_on_cluster o k1 Hpost Hns) as [-> Hk2].
  rewrite (createDeployment_trace_on_cluster o k1 Hpost Hns).
  set (k2 := final (exec cluster (createDeployment o) k1)) in *.
  assert (Hns2 : is_Some (namespaces k2 !! namespace o)) by by rewrite Hk2.
  rewrite (createService_trace_on_cluster o k2 Hpost Hns2).
  cbn [trace]. by rewrite Hk2, Hdep, <- Hsvc.
Qed.

(** X12.  For a configuration whose namespace is a valid namespace name (a
    DNS label), the calls [Start] makes against the reference cluster
    follow from what the cluster holds: the three create calls, and after
    the create of the Deployment (of the Service) one update exactly when
    a Deployment (a Service) named "greeting" was in the namespace before.
    So a run on the empty cluster makes the three create calls and no
    update, and a run on what any run left makes all five calls. *)
Theorem Start_calls_on_cluster (o : GreetingOperator) (k : Cluster) :
  validation.IsDNS1123Label (namespace o) = true →
  let ns := namespace o in
  let d := greetingDeployment o in
  let v := serviceObject o in
  trace (exec cluster (Start o) k) =
    [NamespacesCreate (namespaceObject o); DeploymentsCreate ns d] ++
    match deployments k !! (ns, "greeting") with
    | Some _ => [DeploymentsUpdate ns d]
    | None => []
    end ++
    [ServicesCreate ns v] ++
    match services k !! (ns, "greeting") with
    | Some _ => [ServicesUpdate ns v]
    | None => []
    end ∧
  trace (exec cluster (Start o) emptyCluster) =
    [NamespacesCreate (namespaceObject o); DeploymentsCreate ns d;
     ServicesCreate ns v] ∧
  trace (exec cluster (Start o) (final (exec cluster (Start o) k))) =
    [NamespacesCreate (namespaceObject o); DeploymentsCreate ns d;
     DeploymentsUpdate ns d; ServicesCreate ns v; ServicesUpdate ns v].
Proof.
  intros Hlabel. apply label_Post in Hlabel. cbv zeta. split_and!.
  - by apply Start_trace_on_cluster.
  - rewrite Start_trace_on_cluster by done. unfold emptyCluster.
    cbn [deployments services]. by rewrite !lookup_empty.
  - rewrite Start_trace_on_cluster by done.
    destruct (Start_on_cluster o k Hlabel) as [_ ->]. unfold provisioned.
    cbn [deployments services]. by rewrite !lookup_insert_eq.
Qed.

Lemma Start_calls_on_cluster_witness :
  validation.IsDNS1123Label (namespace scenario) = true ∧
  length (trace (exec cluster (Start scenario) emptyCluster)) = 3%nat ∧
  length (trace (exec cluster (Start scenario)
                   (final (exec cluster (Start scenario) emptyCluster))))
    = 5%nat.
Proof.
  split; [reflexivity|].
  destruct (Start_calls_on_cluster scenario emptyCluster eq_refl)
    as (_ & -> & ->).
  by split.
Defined.

(* ===================================================================== *)
(** ** The greeting server's handlers *)
(* ===================================================================== *)

Lemma append_empty_r (a : string) : String.append a "" = a.
Proof.
  induction a as [|ch a IH]; [done|].
  change (String ch (String.append a "") = String ch a). by rewrite IH.
Qed.

(** X13.  Against any response writer HandleGreet writes its greeting,
    "I am " and the server's name, once; it sets status 500 only after
    that write failed, and it makes no other call. *)
Theorem HandleGreet_calls
  (w : server.ResponseWriter) (srv : server.GreetingServer)
  (s : server.wstate w) :
  let body := String.append "I am " (server.Name srv) in
  (server.serve w (server.HandleGreet srv) s).2 =
    server.Write body ::
    match (server.rwWrite w body s).1 with
    | Some _ => [server.WriteHeader 500]
    | None => []
    end.
Proof.
  cbv zeta. unfold server.HandleGreet, server.greeting. simpl.
  by destruct (server.rwWrite w _ s) as [[err|] s1].
Qed.

(** X14.  On a response HandleGreet answers with status 200 unless a
    status went out before, and adds its greeting to the body when the
    write goes through.  When the write fails the status is 200 all the
    same: the 500 it then asks for comes after the status went out. *)
Theorem HandleGreet_response
  (srv : server.GreetingServer) (r : server.Response) :
  let r' := (server.serve server.response (server.HandleGreet srv) r).1 in
  server.Code r' = Some (default 200 (server.Code r)) ∧
  server.Body r' =
    String.append (server.Body r)
      (if server.Broken r then "" else String.append "I am " (server.Name srv)) ∧
  server.Broken r' = server.Broken r.
Proof.
  destruct r as [[code|] body [|]]; cbn; try rewrite append_empty_r; done.
Qed.

(** X15.  HandleHealthcheck makes the one call WriteHeader(200) against
    any response writer; on a response it answers 200 unless a status
    went out before, and leaves the body as it is. *)
Theorem HandleHealthcheck_response
  (srv : server.GreetingServer) :
  (∀ (w : server.ResponseWriter) (s : server.wstate w),
     server.serve w (server.HandleHealthcheck srv) s =
       (server.rwWriteHeader w 200 s, [server.WriteHeader 200])) ∧
  ∀ r : server.Response,
    let r' := (server.serve server.response (server.HandleHealthcheck srv) r).1 in
    server.Code r' = Some (default 200 (server.Code r)) ∧
    server.Body r' = server.Body r.
Proof.
  split; [done|]. by intros [[code|] body broken].
Qed.

(** X16.  Two servers give the same greeting only when they have the same
    name. *)
Theorem greeting_injective (s1 s2 : server.GreetingServer) :
  server.greeting s1 = server.greeting s2 → s1 = s2.
Proof.
  destruct s1 as [n1], s2 as [n2]. unfold server.greeting. simpl.
  intros H. by simplify_eq.
Qed.

Lemma greeting_injective_witness :
  server.greeting {| server.Name := "Foo Bar" |} = "I am Foo Bar" ∧
  {| server.Name := "Foo Bar" |} = {| server.Name := "Foo Bar" |}.
Proof.
  split; [reflexivity|].
  exact (greeting_injective {| server.Name := "Foo Bar" |}
           {| server.Name := "Foo Bar" |} eq_refl).
Defined.

(** X17.  The liveness probe the operator configures is one the server
    answers: for every operator and every server, the probe's path in the
    built Deployment is a pattern the server registers, and the handler
    there answers a fresh response with status 200 and an empty body,
    whether writes go through or not.  The probe's port is the container
    port the Deployment declares. *)
Theorem liveness_probe_served
  (o : GreetingOperator) (srv : server.GreetingServer) (broken : bool) :
  ∃ c g h,
    containersOf (greetingDeployment o) = [c] ∧
    livenessGet c = Some g ∧
    intstr.FromInt <$> (api.cp_ContainerPort <$> api.c_Ports c)
      = [api.http_Port g] ∧
    server.registered (server.routes srv) (api.http_Path g) = Some h ∧
    let r := (server.serve server.response h (server.fresh broken)).1 in
    server.Code r = Some 200 ∧ server.Body r = "".
Proof.
  eexists _, _, _. cbv zeta.
  split; [reflexivity|]. split; [reflexivity|]. split; [reflexivity|].
  split; [reflexivity|]. by split.
Qed.

(* ===================================================================== *)
(** ** Further edge behaviour of the operator *)
(* ===================================================================== *)

(** X18.  Against a client that refuses nothing but the create of what is
    already there (any call answers nil, or a create answers "already
    exists"), [Start] returns nil: "already exists" never reaches the
    caller. *)
Theorem Start_nil_when_only_conflicts
  (cl : Client) (o : GreetingOperator) (s : cstate cl) :
  lenient cl → result (exec cl (Start o) s) = None.
Proof. intros Hcl. by apply Start_lenient. Qed.

Lemma Start_nil_when_only_conflicts_witness :
  lenient conflictMock ∧ result (exec conflictMock (Start scenario) ()) = None.
Proof.
  split; [exact conflictMock_lenient|].
  exact (Start_nil_when_only_conflicts conflictMock scenario ()
           conflictMock_lenient).
Defined.

(** X19.  createDeployment and createService do not make the namespace
    themselves: for a configuration whose namespace is a valid namespace
    name (a DNS label), run on their own against a reference cluster
    without that namespace, each makes its create call only, returns its
    "not found" answer behind its prefix and leaves the cluster as it
    was. *)
Theorem ensure_without_namespace (o : GreetingOperator) (k : Cluster) :
  validation.IsDNS1123Label (namespace o) = true →
  namespaces k !! namespace o = None →
  exec cluster (createDeployment o) k =
    mkOutcome (Some (Errorf "create deployment: " notFound)) k
      [DeploymentsCreate (namespace o) (greetingDeployment o)] ∧
  exec cluster (createService o) k =
    mkOutcome (Some (Errorf "create service: " notFound)) k
      [ServicesCreate (namespace o) (serviceObject o)].
Proof.
  intros Hlabel Hns. apply label_Post in Hlabel.
  rewrite exec_createDeployment, exec_createService.
  cbn [invoke cluster clusterInvoke]. by rewrite Hlabel, Hns.
Qed.

Lemma ensure_without_namespace_witness :
  validation.IsDNS1123Label (namespace scenario) = true ∧
  namespaces emptyCluster !! namespace scenario = None ∧
  result (exec cluster (createDeployment scenario) emptyCluster)
    = Some (Errorf "create deployment: " notFound).
Proof.
  split; [reflexivity|]. split; [reflexivity|].
  by rewrite (proj1 (ensure_without_namespace scenario emptyCluster
                       eq_refl eq_refl)).
Defined.
